(** * Chronograf: the Kapacitor handlers of [server/kapacitors.go]

    A shallow embedding of the HTTP handlers that manage Kapacitor
    instances scoped to a source and that proxy alert rules to the
    remote Kapacitor engine, followed by the properties proved of them.

    Conventions of the embedding.
    - Go [int] is [Z] (the handlers do no arithmetic on ids), Go [string]
      is [string].
    - A Go slice is [slice A = option (list A)]: [None] is the nil slice,
      [Some []] an empty slice that is not nil (they differ in the JSON
      the handlers emit). A nilable Go map is treated the same way.
    - A Go pointer to a scalar ([*string], [*bool]) is an [option].
    - A Go [error] is a value of [error]; a function returning
      [(T, error)] returns [Result T]; a function returning [error]
      returns [option error], [None] being Go's nil.
    - A handler writes exactly one response; it is returned as a
      [Response], together with the new store where the handler writes. *)

From Stdlib Require Import Ascii String.
From stdpp Require Import gmap strings list pretty.

Local Open Scope string_scope.
Local Open Scope Z_scope.

(** ** Go values *)

Module Go.

Definition slice (A : Type) : Type := option (list A).

(** The elements a [range] loop visits; [len] of a nil slice is 0. *)
Definition elems {A : Type} (s : slice A) : list A := default [] s.

Definition len {A : Type} (s : slice A) : nat := length (elems s).

(** [s == nil] *)
Definition is_nil {A : Type} (s : option A) : bool :=
  match s with None => true | Some _ => false end.

(** [make([]A, 0)] *)
Definition make {A : Type} : slice A := Some [].

(** [append(s, x)] *)
Definition append {A : Type} (s : slice A) (x : A) : slice A :=
  Some (elems s ++ [x])%list.

(** [for _, x := range s { body }] where [x] is the loop's own copy of
    the element: [body] receives that copy and the state of the
    variables that live outside the loop, and returns their new state.
    Whatever [body] does to its copy is gone at the end of the
    iteration, because a range loop never writes the copy back. *)
Definition range {A S : Type} (s : slice A) (body : A -> S -> S) (st : S) : S :=
  fold_left (fun acc x => body x acc) (elems s) st.

(** [fmt.Sprintf("%d", n)] *)
Definition Sprintd (n : Z) : string := pretty n.

End Go.

Import Go.

(** Go errors. [chronograf.ErrAlertNotFound] is the one sentinel the
    handlers compare against with [==]; every other error is known by
    its text only. *)
Inductive error : Type :=
| ErrAlertNotFound
| errorString (msg : string).

#[global] Instance error_eq_dec : EqDecision error.
Proof. solve_decision. Defined.

Inductive Result (A : Type) : Type :=
| Ok (a : A)
| Fail (err : error).
Arguments Ok {A} a.
Arguments Fail {A} err.

(** [net/http] status codes used by the handlers. *)
Definition StatusOK : Z := 200.
Definition StatusCreated : Z := 201.
Definition StatusNoContent : Z := 204.
Definition StatusUnprocessableEntity : Z := 422.
Definition StatusInternalServerError : Z := 500.

(** ** Data model *)

(** Modelled from the spec: the declaration of [chronograf.Server] is
    not in this file of the repository; these are the fields the
    handlers read and write (spec, KapacitorInstance: id, sourceId,
    name, url, username, password, active). *)
Record Server : Type := mkServer {
  Server_ID : Z;
  Server_SrcID : Z;
  Server_Name : string;
  Server_Username : string;
  Server_Password : string;
  Server_URL : string;
  Server_Active : bool
}.

Record postKapacitorRequest : Type := mkPostKapacitorRequest {
  post_Name : option string;
  post_URL : option string;
  post_Username : string;
  post_Password : string;
  post_Active : bool
}.

Record patchKapacitorRequest : Type := mkPatchKapacitorRequest {
  patch_Name : option string;
  patch_URL : option string;
  patch_Username : option string;
  patch_Password : option string;
  patch_Active : option bool
}.

Record kapaLinks : Type := mkKapaLinks {
  kapaLinks_Proxy : string;
  kapaLinks_Self : string;
  kapaLinks_Rules : string
}.

Record kapacitor : Type := mkKapacitor {
  kapacitor_ID : Z;
  kapacitor_Name : string;
  kapacitor_URL : string;
  kapacitor_Username : string;
  kapacitor_Password : string;
  kapacitor_Active : bool;
  kapacitor_Links : kapaLinks
}.

Record kapacitors : Type := mkKapacitors {
  kapacitors_Kapacitors : slice kapacitor
}.

(** Modelled from the spec: the declarations of [chronograf.AlertRule],
    [QueryConfig], [Field], [GroupBy], [KapacitorNode] and
    [KapacitorProperty] are not in this file of the repository. The
    fields are those of the spec's AlertRule (id, name, trigger,
    triggerValues, every, query, alertNodes, message, alerts) and the
    ones the handlers touch; the element types of the slices are the
    ones [newAlertResponse] passes to [make]: slices of struct values,
    not of pointers. [Query] is a pointer in the source ([rule.Query ==
    nil]); the embedding holds the pointed-to value, so what a handler
    writes through the pointer shows in the value it returns. *)
Record KapacitorProperty : Type := mkKapacitorProperty {
  KapacitorProperty_Name : string;
  KapacitorProperty_Args : slice string
}.

Record KapacitorNode : Type := mkKapacitorNode {
  KapacitorNode_Name : string;
  KapacitorNode_Args : slice string;
  KapacitorNode_Properties : slice KapacitorProperty
}.

Record Field : Type := mkField {
  Field_Field : string;
  Field_Funcs : slice string
}.

Record GroupBy : Type := mkGroupBy {
  GroupBy_Time : string;
  GroupBy_Tags : slice string
}.

Record QueryConfig : Type := mkQueryConfig {
  QueryConfig_ID : string;
  QueryConfig_Database : string;
  QueryConfig_RetentionPolicy : string;
  QueryConfig_Fields : slice Field;
  QueryConfig_Tags : option (gmap string (slice string));
  QueryConfig_GroupBy : GroupBy
}.

Record AlertRule : Type := mkAlertRule {
  AlertRule_ID : string;
  AlertRule_TICKScript : string;
  AlertRule_Query : option QueryConfig;
  AlertRule_Every : string;
  AlertRule_Alerts : slice string;
  AlertRule_AlertNodes : slice KapacitorNode;
  AlertRule_Message : string;
  AlertRule_Trigger : string;
  AlertRule_TriggerValues : string;
  AlertRule_Name : string
}.

Record alertLinks : Type := mkAlertLinks {
  alertLinks_Self : string;
  alertLinks_Kapacitor : string;
  alertLinks_Output : string
}.

(** [alertResponse] embeds [chronograf.AlertRule]: [res.Alerts] in the
    source is [AlertRule_Alerts (alertResponse_AlertRule res)] here. *)
Record alertResponse : Type := mkAlertResponse {
  alertResponse_AlertRule : AlertRule;
  alertResponse_TICKScript : string;
  alertResponse_Status : string;
  alertResponse_Links : alertLinks
}.

Record allAlertsResponse : Type := mkAllAlertsResponse {
  allAlertsResponse_Rules : slice alertResponse
}.

Record KapacitorStatus : Type := mkKapacitorStatus {
  KapacitorStatus_Status : string
}.

(** Modelled from the spec: [kapa.Task] is declared in the repository's
    [kapacitor] package, not in this file (spec, RemoteTask: rule,
    tickScript, href, hrefOutput). *)
Record Task : Type := mkTask {
  Task_Rule : AlertRule;
  Task_TICKScript : string;
  Task_Href : string;
  Task_HrefOutput : string
}.

(** The one field of [net/url.URL] that the handlers read. *)
Record URL : Type := mkURL {
  URL_Scheme : string
}.

(** ** Responses

    The helpers [Error], [notFound], [invalidJSON], [invalidData],
    [unknownErrorWithMessage] and [encodeJSON] live elsewhere in the
    server package; a response records which helper wrote it and with
    which arguments. [encodeJSON] also carries the [Location] header the
    handler added before it, if any. *)
Inductive Body : Type :=
| body_kapacitor (k : kapacitor)
| body_kapacitors (ks : kapacitors)
| body_alertResponse (a : alertResponse)
| body_allAlertsResponse (a : allAlertsResponse).

Inductive Response : Type :=
| Error (code : Z) (msg : string)
| notFound (id : Z)
| invalidJSON
| invalidData (err : error)
| unknownErrorWithMessage (err : error)
| encodeJSON (location : option string) (code : Z) (body : Body)
| WriteHeader (code : Z).

(** A nil pointer dereference. No handler reaches one (see
    [NewKapacitor_never_panics]); the constructor keeps [*req.Name] and
    [*req.URL] partial, as they are in Go. *)
Inductive Outcome : Type :=
| Wrote (r : Response)
| panic.

(** ** Collaborators

    [chronograf.ServersStore] and [chronograf.SourcesStore] are Go
    interfaces held by the [Service]; their implementations are not part
    of this file. A store is a state of some type with the interface's
    methods; the methods that write return the new state. The handlers
    discard the source that [SourcesStore.Get] returns, so only its
    error is kept. *)
Class ServersStore (St : Type) : Type := {
  ServersStore_All : St -> Result (list Server);
  ServersStore_Add : St -> Server -> St * Result Server;
  ServersStore_Delete : St -> Server -> St * option error;
  ServersStore_Get : St -> Z -> Result Server;
  ServersStore_Update : St -> Server -> St * option error
}.

Class SourcesStore (Ss : Type) : Type := {
  SourcesStore_Get : Ss -> Z -> option error
}.

(** Modelled from the spec: [kapa.Client] is declared in the
    repository's [kapacitor] package (spec 4.1: constructed from base
    URL, username and password). *)
Record Client : Type := mkClient {
  Client_URL : string;
  Client_Username : string;
  Client_Password : string
}.

(** [kapa.NewClient] *)
Definition NewClient (url username password : string) : Client :=
  mkClient url username password.

(** ** Calls to the remote engine

    The methods of [kapa.Client] that go over the network. A handler
    that uses the client is a tree: it issues a call, and goes on with
    whatever the engine answers. *)
Inductive call : Type -> Type :=
| Create (c : Client) (rule : AlertRule) : call (Result Task)
| Get (c : Client) (id : string) : call (Result AlertRule)
| Update (c : Client) (href : string) (rule : AlertRule) : call (Result Task)
| Enable (c : Client) (href : string) : call (Result Task)
| Disable (c : Client) (href : string) : call (Result Task)
| Delete (c : Client) (href : string) : call (option error)
| All (c : Client) : call (Result (slice AlertRule))
| AllStatus (c : Client) : call (Result (gmap string string))
| Status (c : Client) (href : string) : call (Result string).

Inductive Remote (A : Type) : Type :=
| Ret (a : A)
| Call {X : Type} (e : call X) (k : X -> Remote A).
Arguments Ret {A} a.
Arguments Call {A X} e k.

Notation "x <~ e ;; k" := (Call e (fun x => k))
  (at level 100, e at next level, right associativity).

(** Running a handler against an engine: [h] answers each call and
    moves the engine's state. *)
Definition engine (E : Type) : Type := forall X : Type, call X -> E -> E * X.

Fixpoint run {A E : Type} (h : engine E) (m : Remote A) (e : E) : E * A :=
  match m with
  | Ret a => (e, a)
  | Call ev k => let '(e', x) := h _ ev e in run h (k x) e'
  end.

(** [every_call P m]: each call that [m] issues, whatever the engine
    answers, satisfies [P]. *)
Fixpoint every_call {A : Type} (P : forall X : Type, call X -> Prop) (m : Remote A) : Prop :=
  match m with
  | Ret _ => True
  | Call ev k => P _ ev /\ forall x, every_call P (k x)
  end.

(** Functions the handlers call that are defined outside this file:
    Go's standard library and the pure methods of [kapa.Client]. *)
Class External : Type := {
  (** [net/url.ParseRequestURI] *)
  ParseRequestURI : string -> Result URL;
  (** [net/url.QueryEscape] *)
  QueryEscape : string -> string;
  (** the text [err.Error()] of the sentinel [chronograf.ErrAlertNotFound] *)
  ErrAlertNotFound_text : string;
  (** what [%v] prints for a [postKapacitorRequest], a struct of pointers *)
  Sprintv_postKapacitorRequest : postKapacitorRequest -> string;
  (** [c.Href(id)] and [c.HrefOutput(id)] (spec 4.1: pure, no network call) *)
  Client_Href : Client -> string -> string;
  Client_HrefOutput : Client -> string -> string
}.

(** ** Kapacitor instances *)

Section Service.

Context `{!External} {St Ss : Type} `{!ServersStore St} `{!SourcesStore Ss}.

(** [err.Error()] *)
Definition error_Error (err : error) : string :=
  match err with
  | ErrAlertNotFound => ErrAlertNotFound_text
  | errorString msg => msg
  end.

Definition postKapacitorRequest_Valid (p : postKapacitorRequest) : option error :=
  match post_Name p, post_URL p with
  | Some _, Some purl =>
      match ParseRequestURI purl with
      | Fail err => Some (errorString ("invalid source URI: " +:+ error_Error err))
      | Ok url =>
          if decide (String.length (URL_Scheme url) = 0%nat)
          then Some (errorString "Invalid URL; no URL scheme defined")
          else None
      end
  | _, _ => Some (errorString "name and url required")
  end.

Definition newKapacitor (srv : Server) : kapacitor :=
  let httpAPISrcs := "/chronograf/v1/sources" in
  {| kapacitor_ID := Server_ID srv;
     kapacitor_Name := Server_Name srv;
     kapacitor_URL := Server_URL srv;
     kapacitor_Username := Server_Username srv;
     kapacitor_Password := "";
     kapacitor_Active := Server_Active srv;
     kapacitor_Links :=
       {| kapaLinks_Self :=
            httpAPISrcs +:+ "/" +:+ Sprintd (Server_SrcID srv) +:+ "/kapacitors/"
              +:+ Sprintd (Server_ID srv);
          kapaLinks_Proxy :=
            httpAPISrcs +:+ "/" +:+ Sprintd (Server_SrcID srv) +:+ "/kapacitors/"
              +:+ Sprintd (Server_ID srv) +:+ "/proxy";
          kapaLinks_Rules :=
            httpAPISrcs +:+ "/" +:+ Sprintd (Server_SrcID srv) +:+ "/kapacitors/"
              +:+ Sprintd (Server_ID srv) +:+ "/rules" |} |}.

(** [NewKapacitor]. [id] is what [paramID("id", r)] returned and [body]
    the request body as [json.Decode] read it, [None] when it failed. *)
Definition NewKapacitor (ss : Ss) (st : St) (id : Result Z)
    (body : option postKapacitorRequest) : St * Outcome :=
  match id with
  | Fail err => (st, Wrote (Error StatusUnprocessableEntity (error_Error err)))
  | Ok srcID =>
      match SourcesStore_Get ss srcID with
      | Some _ => (st, Wrote (notFound srcID))
      | None =>
          match body with
          | None => (st, Wrote invalidJSON)
          | Some req =>
              match postKapacitorRequest_Valid req with
              | Some err => (st, Wrote (invalidData err))
              | None =>
                  match post_Name req, post_URL req with
                  | Some name, Some purl =>
                      let srv :=
                        {| Server_ID := 0;
                           Server_SrcID := srcID;
                           Server_Name := name;
                           Server_Username := post_Username req;
                           Server_Password := post_Password req;
                           Server_URL := purl;
                           Server_Active := post_Active req |} in
                      match ServersStore_Add st srv with
                      | (st', Fail err) =>
                          let msg :=
                            errorString
                              ("Error storing kapacitor "
                                 +:+ Sprintv_postKapacitorRequest req
                                 +:+ ": " +:+ error_Error err) in
                          (st', Wrote (unknownErrorWithMessage msg))
                      | (st', Ok srv) =>
                          let res := newKapacitor srv in
                          (st', Wrote (encodeJSON
                                         (Some (kapaLinks_Self (kapacitor_Links res)))
                                         StatusCreated (body_kapacitor res)))
                      end
                  | _, _ => (st, panic)
                  end
              end
          end
      end
  end.

(** [Kapacitors]: the instances of one source. *)
Definition Kapacitors (st : St) (id : Result Z) : Response :=
  match id with
  | Fail err => Error StatusUnprocessableEntity (error_Error err)
  | Ok srcID =>
      match ServersStore_All st with
      | Fail _ => Error StatusInternalServerError "Error loading kapacitors"
      | Ok mrSrvs =>
          let srvs :=
            range (Some mrSrvs)
              (fun srv srvs =>
                 if decide (Server_SrcID srv = srcID)
                 then append srvs (newKapacitor srv)
                 else srvs)
              (Some []) in
          encodeJSON None StatusOK (body_kapacitors {| kapacitors_Kapacitors := srvs |})
      end
  end.

(** The scope guard every handler opens with:
    [srv, err := h.ServersStore.Get(ctx, id);
     if err != nil || srv.SrcID != srcID { notFound(w, id); return }].
    [inl srv] is the instance the handler goes on with, [inr r] the
    response it returned with. *)
Definition scoped (st : St) (id srcID : Z) : Server + Response :=
  match ServersStore_Get st id with
  | Fail _ => inr (notFound id)
  | Ok srv =>
      if decide (Server_SrcID srv ≠ srcID) then inr (notFound id) else inl srv
  end.

(** [KapacitorsID]. [kid] and [id] are what [paramID("kid", r)] and
    [paramID("id", r)] returned, read in that order. *)
Definition KapacitorsID (st : St) (kid id : Result Z) : Response :=
  match kid with
  | Fail err => Error StatusUnprocessableEntity (error_Error err)
  | Ok id' =>
      match id with
      | Fail err => Error StatusUnprocessableEntity (error_Error err)
      | Ok srcID =>
          match scoped st id' srcID with
          | inr r => r
          | inl srv => encodeJSON None StatusOK (body_kapacitor (newKapacitor srv))
          end
      end
  end.

Definition RemoveKapacitor (st : St) (kid id : Result Z) : St * Response :=
  match kid with
  | Fail err => (st, Error StatusUnprocessableEntity (error_Error err))
  | Ok id' =>
      match id with
      | Fail err => (st, Error StatusUnprocessableEntity (error_Error err))
      | Ok srcID =>
          match scoped st id' srcID with
          | inr r => (st, r)
          | inl srv =>
              match ServersStore_Delete st srv with
              | (st', Some err) => (st', unknownErrorWithMessage err)
              | (st', None) => (st', WriteHeader StatusNoContent)
              end
          end
      end
  end.

Definition patchKapacitorRequest_Valid (p : patchKapacitorRequest) : option error :=
  match patch_URL p with
  | Some purl =>
      match ParseRequestURI purl with
      | Fail err => Some (errorString ("invalid source URI: " +:+ error_Error err))
      | Ok url =>
          if decide (String.length (URL_Scheme url) = 0%nat)
          then Some (errorString "Invalid URL; no URL scheme defined")
          else None
      end
  | None => None
  end.

(** Lines 255-269 of [UpdateKapacitor]: five guarded assignments to the
    handler's copy [srv], in the order of the source. *)
Definition patch_assign (req : patchKapacitorRequest) (srv : Server) : Server :=
  let srv :=
    match patch_Name req with
    | Some v => mkServer (Server_ID srv) (Server_SrcID srv) v (Server_Username srv)
                  (Server_Password srv) (Server_URL srv) (Server_Active srv)
    | None => srv
    end in
  let srv :=
    match patch_URL req with
    | Some v => mkServer (Server_ID srv) (Server_SrcID srv) (Server_Name srv)
                  (Server_Username srv) (Server_Password srv) v (Server_Active srv)
    | None => srv
    end in
  let srv :=
    match patch_Password req with
    | Some v => mkServer (Server_ID srv) (Server_SrcID srv) (Server_Name srv)
                  (Server_Username srv) v (Server_URL srv) (Server_Active srv)
    | None => srv
    end in
  let srv :=
    match patch_Username req with
    | Some v => mkServer (Server_ID srv) (Server_SrcID srv) (Server_Name srv) v
                  (Server_Password srv) (Server_URL srv) (Server_Active srv)
    | None => srv
    end in
  let srv :=
    match patch_Active req with
    | Some v => mkServer (Server_ID srv) (Server_SrcID srv) (Server_Name srv)
                  (Server_Username srv) (Server_Password srv) (Server_URL srv) v
    | None => srv
    end in
  srv.

Definition UpdateKapacitor (st : St) (kid id : Result Z)
    (body : option patchKapacitorRequest) : St * Response :=
  match kid with
  | Fail err => (st, Error StatusUnprocessableEntity (error_Error err))
  | Ok id' =>
      match id with
      | Fail err => (st, Error StatusUnprocessableEntity (error_Error err))
      | Ok srcID =>
          match scoped st id' srcID with
          | inr r => (st, r)
          | inl srv =>
              match body with
              | None => (st, invalidJSON)
              | Some req =>
                  match patchKapacitorRequest_Valid req with
                  | Some err => (st, invalidData err)
                  | None =>
                      let srv := patch_assign req srv in
                      match ServersStore_Update st srv with
                      | (st', Some _) =>
                          let msg := "Error updating kapacitor ID " +:+ Sprintd id' in
                          (st', Error StatusInternalServerError msg)
                      | (st', None) =>
                          (st', encodeJSON None StatusOK (body_kapacitor (newKapacitor srv)))
                      end
                  end
              end
          end
      end
  end.


(** ** Alert rules *)

(** Field assignments [x.F = v] on the structs of the rule model. *)
Definition set_KapacitorProperty_Args (v : slice string) (p : KapacitorProperty) : KapacitorProperty :=
  mkKapacitorProperty (KapacitorProperty_Name p) v.

Definition set_KapacitorNode_Args (v : slice string) (n : KapacitorNode) : KapacitorNode :=
  mkKapacitorNode (KapacitorNode_Name n) v (KapacitorNode_Properties n).

Definition set_KapacitorNode_Properties (v : slice KapacitorProperty) (n : KapacitorNode) : KapacitorNode :=
  mkKapacitorNode (KapacitorNode_Name n) (KapacitorNode_Args n) v.

Definition set_Field_Funcs (v : slice string) (f : Field) : Field :=
  mkField (Field_Field f) v.

Definition set_GroupBy_Tags (v : slice string) (g : GroupBy) : GroupBy :=
  mkGroupBy (GroupBy_Time g) v.

Definition set_QueryConfig_ID (v : string) (q : QueryConfig) : QueryConfig :=
  mkQueryConfig v (QueryConfig_Database q) (QueryConfig_RetentionPolicy q)
    (QueryConfig_Fields q) (QueryConfig_Tags q) (QueryConfig_GroupBy q).

Definition set_QueryConfig_Fields (v : slice Field) (q : QueryConfig) : QueryConfig :=
  mkQueryConfig (QueryConfig_ID q) (QueryConfig_Database q) (QueryConfig_RetentionPolicy q)
    v (QueryConfig_Tags q) (QueryConfig_GroupBy q).

Definition set_QueryConfig_Tags (v : option (gmap string (slice string))) (q : QueryConfig) : QueryConfig :=
  mkQueryConfig (QueryConfig_ID q) (QueryConfig_Database q) (QueryConfig_RetentionPolicy q)
    (QueryConfig_Fields q) v (QueryConfig_GroupBy q).

Definition set_QueryConfig_GroupBy (v : GroupBy) (q : QueryConfig) : QueryConfig :=
  mkQueryConfig (QueryConfig_ID q) (QueryConfig_Database q) (QueryConfig_RetentionPolicy q)
    (QueryConfig_Fields q) (QueryConfig_Tags q) v.

Definition set_AlertRule_ID (v : string) (r : AlertRule) : AlertRule :=
  mkAlertRule v (AlertRule_TICKScript r) (AlertRule_Query r) (AlertRule_Every r)
    (AlertRule_Alerts r) (AlertRule_AlertNodes r) (AlertRule_Message r)
    (AlertRule_Trigger r) (AlertRule_TriggerValues r) (AlertRule_Name r).

Definition set_AlertRule_Query (v : option QueryConfig) (r : AlertRule) : AlertRule :=
  mkAlertRule (AlertRule_ID r) (AlertRule_TICKScript r) v (AlertRule_Every r)
    (AlertRule_Alerts r) (AlertRule_AlertNodes r) (AlertRule_Message r)
    (AlertRule_Trigger r) (AlertRule_TriggerValues r) (AlertRule_Name r).

Definition set_AlertRule_Alerts (v : slice string) (r : AlertRule) : AlertRule :=
  mkAlertRule (AlertRule_ID r) (AlertRule_TICKScript r) (AlertRule_Query r) (AlertRule_Every r)
    v (AlertRule_AlertNodes r) (AlertRule_Message r)
    (AlertRule_Trigger r) (AlertRule_TriggerValues r) (AlertRule_Name r).

Definition set_AlertRule_AlertNodes (v : slice KapacitorNode) (r : AlertRule) : AlertRule :=
  mkAlertRule (AlertRule_ID r) (AlertRule_TICKScript r) (AlertRule_Query r) (AlertRule_Every r)
    (AlertRule_Alerts r) v (AlertRule_Message r)
    (AlertRule_Trigger r) (AlertRule_TriggerValues r) (AlertRule_Name r).

(** An assignment to a field promoted from the embedded [AlertRule]. *)
Definition on_AlertRule (f : AlertRule -> AlertRule) (res : alertResponse) : alertResponse :=
  mkAlertResponse (f (alertResponse_AlertRule res)) (alertResponse_TICKScript res)
    (alertResponse_Status res) (alertResponse_Links res).

(** [newAlertResponse] formats a task into an [alertResponse]. The three
    range loops assign to their loop variables [n], [p] and [f], which
    are copies of the slice elements. *)
Definition newAlertResponse (rule : AlertRule) (tickScript href hrefOutput status : string)
    (srcID kapaID : Z) : alertResponse :=
  let res :=
    {| alertResponse_AlertRule := rule;
       alertResponse_Links :=
         {| alertLinks_Self :=
              "/chronograf/v1/sources/" +:+ Sprintd srcID +:+ "/kapacitors/"
                +:+ Sprintd kapaID +:+ "/rules/" +:+ AlertRule_ID rule;
            alertLinks_Kapacitor :=
              "/chronograf/v1/sources/" +:+ Sprintd srcID +:+ "/kapacitors/"
                +:+ Sprintd kapaID +:+ "/proxy?path=" +:+ QueryEscape href;
            alertLinks_Output :=
              "/chronograf/v1/sources/" +:+ Sprintd srcID +:+ "/kapacitors/"
                +:+ Sprintd kapaID +:+ "/proxy?path=" +:+ QueryEscape hrefOutput |};
       alertResponse_TICKScript := tickScript;
       alertResponse_Status := status |} in
  let res :=
    if is_nil (AlertRule_Alerts (alertResponse_AlertRule res))
    then on_AlertRule (set_AlertRule_Alerts make) res
    else res in
  let res :=
    if is_nil (AlertRule_AlertNodes (alertResponse_AlertRule res))
    then on_AlertRule (set_AlertRule_AlertNodes make) res
    else res in
  let res :=
    range (AlertRule_AlertNodes (alertResponse_AlertRule res))
      (fun n res =>
         let n := if is_nil (KapacitorNode_Args n)
                  then set_KapacitorNode_Args make n else n in
         let n := if is_nil (KapacitorNode_Properties n)
                  then set_KapacitorNode_Properties make n else n in
         let n :=
           range (KapacitorNode_Properties n)
             (fun p n =>
                let p := if is_nil (KapacitorProperty_Args p)
                         then set_KapacitorProperty_Args make p else p in
                n)
             n in
         res)
      res in
  match AlertRule_Query (alertResponse_AlertRule res) with
  | Some q =>
      let q :=
        if decide (QueryConfig_ID q = "")
        then set_QueryConfig_ID (AlertRule_ID (alertResponse_AlertRule res)) q
        else q in
      let q :=
        if is_nil (QueryConfig_Fields q) then set_QueryConfig_Fields make q else q in
      let q :=
        range (QueryConfig_Fields q)
          (fun f q =>
             let f := if is_nil (Field_Funcs f) then set_Field_Funcs make f else f in
             q)
          q in
      let q :=
        if is_nil (GroupBy_Tags (QueryConfig_GroupBy q))
        then set_QueryConfig_GroupBy (set_GroupBy_Tags make (QueryConfig_GroupBy q)) q
        else q in
      let q :=
        if is_nil (QueryConfig_Tags q) then set_QueryConfig_Tags (Some ∅) q else q in
      on_AlertRule (set_AlertRule_Query (Some q)) res
  | None => res
  end.

(** The loop of [ValidRuleRequest], which leaves at the first field that
    has a function. *)
Fixpoint hasFuncs_loop (fields : list Field) : bool :=
  match fields with
  | [] => false
  | f :: rest => if bool_decide (0 < len (Field_Funcs f))%nat then true else hasFuncs_loop rest
  end.

Definition dquote : string := String (Ascii.ascii_of_nat 34) EmptyString.

(** [ValidRuleRequest] checks if the requested rule change is valid. *)
Definition ValidRuleRequest (rule : AlertRule) : option error :=
  match AlertRule_Query rule with
  | None => Some (errorString "invalid alert rule: no query defined")
  | Some q =>
      let hasFuncs := hasFuncs_loop (elems (QueryConfig_Fields q)) in
      if bool_decide (AlertRule_Every rule = "") && hasFuncs
      then Some (errorString ("invalid alert rule: functions require an "
                                +:+ dquote +:+ "every" +:+ dquote +:+ " window"))
      else None
  end.

(** [KapacitorStatus.Valid] checks that the status is enabled or disabled. *)
Definition KapacitorStatus_Valid (k : KapacitorStatus) : option error :=
  if bool_decide (KapacitorStatus_Status k = "enabled")
     || bool_decide (KapacitorStatus_Status k = "disabled")
  then None
  else Some (errorString ("Invalid Kapacitor status: " +:+ KapacitorStatus_Status k)).

(** ** Rule handlers *)

(** The error branch shared by the handlers after [c.Get]. *)
Definition get_failed (id : Z) (err : error) : Response :=
  if decide (err = ErrAlertNotFound)
  then notFound id
  else Error StatusInternalServerError (error_Error err).

(** [KapacitorRulesPost] proxies POST to kapacitor. *)
Definition KapacitorRulesPost (st : St) (kid id : Result Z)
    (body : option AlertRule) : Remote Response :=
  match kid with
  | Fail err => Ret (Error StatusUnprocessableEntity (error_Error err))
  | Ok id' =>
      match id with
      | Fail err => Ret (Error StatusUnprocessableEntity (error_Error err))
      | Ok srcID =>
          match scoped st id' srcID with
          | inr r => Ret r
          | inl srv =>
              let c := NewClient (Server_URL srv) (Server_Username srv) (Server_Password srv) in
              match body with
              | None => Ret invalidJSON
              | Some req =>
                  r <~ Create c req ;;
                  match r with
                  | Fail err => Ret (Error StatusInternalServerError (error_Error err))
                  | Ok task =>
                      let res :=
                        newAlertResponse (Task_Rule task) (Task_TICKScript task)
                          (Task_Href task) (Task_HrefOutput task) "enabled"
                          (Server_SrcID srv) (Server_ID srv) in
                      Ret (encodeJSON (Some (alertLinks_Self (alertResponse_Links res)))
                             StatusCreated (body_alertResponse res))
                  end
              end
          end
      end
  end.

(** [KapacitorRulesPut] proxies PATCH to kapacitor. [tid] is the path
    parameter of that name. *)
Definition KapacitorRulesPut (st : St) (kid id : Result Z) (tid : string)
    (body : option AlertRule) : Remote Response :=
  match kid with
  | Fail err => Ret (Error StatusUnprocessableEntity (error_Error err))
  | Ok id' =>
      match id with
      | Fail err => Ret (Error StatusUnprocessableEntity (error_Error err))
      | Ok srcID =>
          match scoped st id' srcID with
          | inr r => Ret r
          | inl srv =>
              let c := NewClient (Server_URL srv) (Server_Username srv) (Server_Password srv) in
              match body with
              | None => Ret invalidJSON
              | Some req =>
                  r <~ Get c tid ;;
                  match r with
                  | Fail err => Ret (get_failed id' err)
                  | Ok _ =>
                      let req := set_AlertRule_ID tid req in
                      r <~ Update c (Client_Href c tid) req ;;
                      match r with
                      | Fail err => Ret (Error StatusInternalServerError (error_Error err))
                      | Ok task =>
                          let res :=
                            newAlertResponse (Task_Rule task) (Task_TICKScript task)
                              (Task_Href task) (Task_HrefOutput task) "enabled"
                              (Server_SrcID srv) (Server_ID srv) in
                          Ret (encodeJSON None StatusOK (body_alertResponse res))
                      end
                  end
              end
          end
      end
  end.

(** [KapacitorRulesGet] retrieves all rules. *)
Definition KapacitorRulesGet (st : St) (kid id : Result Z) : Remote Response :=
  match kid with
  | Fail err => Ret (Error StatusUnprocessableEntity (error_Error err))
  | Ok id' =>
      match id with
      | Fail err => Ret (Error StatusUnprocessableEntity (error_Error err))
      | Ok srcID =>
          match scoped st id' srcID with
          | inr r => Ret r
          | inl srv =>
              let c := NewClient (Server_URL srv) (Server_Username srv) (Server_Password srv) in
              r <~ All c ;;
              match r with
              | Fail err => Ret (Error StatusInternalServerError (error_Error err))
              | Ok rules =>
                  r <~ AllStatus c ;;
                  match r with
                  | Fail err => Ret (Error StatusInternalServerError (error_Error err))
                  | Ok statuses =>
                      let res := {| allAlertsResponse_Rules := Some [] |} in
                      let res :=
                        range rules
                          (fun rule res =>
                             match statuses !! AlertRule_ID rule with
                             | None => res
                             | Some status =>
                                 let ar :=
                                   newAlertResponse rule (AlertRule_TICKScript rule)
                                     (Client_Href c (AlertRule_ID rule))
                                     (Client_HrefOutput c (AlertRule_ID rule))
                                     status (Server_SrcID srv) (Server_ID srv) in
                                 {| allAlertsResponse_Rules :=
                                      append (allAlertsResponse_Rules res) ar |}
                             end)
                          res in
                      Ret (encodeJSON None StatusOK (body_allAlertsResponse res))
                  end
              end
          end
      end
  end.


(** [KapacitorRulesStatus] proxies PATCH to kapacitor to enable or
    disable a task. *)
Definition KapacitorRulesStatus (st : St) (kid id : Result Z) (tid : string)
    (body : option KapacitorStatus) : Remote Response :=
  match kid with
  | Fail err => Ret (Error StatusUnprocessableEntity (error_Error err))
  | Ok id' =>
      match id with
      | Fail err => Ret (Error StatusUnprocessableEntity (error_Error err))
      | Ok srcID =>
          match scoped st id' srcID with
          | inr r => Ret r
          | inl srv =>
              let c := NewClient (Server_URL srv) (Server_Username srv) (Server_Password srv) in
              match body with
              | None => Ret invalidJSON
              | Some req =>
                  match KapacitorStatus_Valid req with
                  | Some err => Ret (invalidData err)
                  | None =>
                      r <~ Get c tid ;;
                      match r with
                      | Fail err => Ret (get_failed id' err)
                      | Ok alert =>
                          r <~ (if bool_decide (KapacitorStatus_Status req = "enabled")
                                then Enable c (Client_Href c tid)
                                else Disable c (Client_Href c tid)) ;;
                          match r with
                          | Fail err =>
                              Ret (Error StatusInternalServerError (error_Error err))
                          | Ok task =>
                              let res :=
                                newAlertResponse alert (Task_TICKScript task)
                                  (Task_Href task) (Task_HrefOutput task)
                                  (KapacitorStatus_Status req)
                                  (Server_SrcID srv) (Server_ID srv) in
                              Ret (encodeJSON None StatusOK (body_alertResponse res))
                          end
                      end
                  end
              end
          end
      end
  end.

(** [KapacitorRulesID] retrieves a specific task. *)
Definition KapacitorRulesID (st : St) (kid id : Result Z) (tid : string)
    : Remote Response :=
  match kid with
  | Fail err => Ret (Error StatusUnprocessableEntity (error_Error err))
  | Ok id' =>
      match id with
      | Fail err => Ret (Error StatusUnprocessableEntity (error_Error err))
      | Ok srcID =>
          match scoped st id' srcID with
          | inr r => Ret r
          | inl srv =>
              let c := NewClient (Server_URL srv) (Server_Username srv) (Server_Password srv) in
              r <~ Get c tid ;;
              match r with
              | Fail err => Ret (get_failed id' err)
              | Ok rule =>
                  r <~ Status c (Client_Href c (AlertRule_ID rule)) ;;
                  match r with
                  | Fail err => Ret (Error StatusInternalServerError (error_Error err))
                  | Ok status =>
                      let res :=
                        newAlertResponse rule (AlertRule_TICKScript rule)
                          (Client_Href c (AlertRule_ID rule))
                          (Client_HrefOutput c (AlertRule_ID rule))
                          status (Server_SrcID srv) (Server_ID srv) in
                      Ret (encodeJSON None StatusOK (body_alertResponse res))
                  end
              end
          end
      end
  end.

(** [KapacitorRulesDelete] proxies DELETE to kapacitor. *)
Definition KapacitorRulesDelete (st : St) (kid id : Result Z) (tid : string)
    : Remote Response :=
  match kid with
  | Fail err => Ret (Error StatusUnprocessableEntity (error_Error err))
  | Ok id' =>
      match id with
      | Fail err => Ret (Error StatusUnprocessableEntity (error_Error err))
      | Ok srcID =>
          match scoped st id' srcID with
          | inr r => Ret r
          | inl srv =>
              let c := NewClient (Server_URL srv) (Server_Username srv) (Server_Password srv) in
              r <~ Get c tid ;;
              match r with
              | Fail err => Ret (get_failed id' err)
              | Ok _ =>
                  r <~ Delete c (Client_Href c tid) ;;
                  match r with
                  | Some err => Ret (Error StatusInternalServerError (error_Error err))
                  | None => Ret (WriteHeader StatusNoContent)
                  end
              end
          end
      end
  end.

(** ** Vocabulary of the statements *)

(** What [newAlertResponse] returns, field by field. The slices
    [Alerts], [AlertNodes], [Query.Fields], [Query.GroupBy.Tags] and the
    map [Query.Tags] come out non-nil with the elements they had; the
    elements themselves come out as they went in. *)
Definition normalized_query (id : string) (q : QueryConfig) : QueryConfig :=
  {| QueryConfig_ID := if decide (QueryConfig_ID q = "") then id else QueryConfig_ID q;
     QueryConfig_Database := QueryConfig_Database q;
     QueryConfig_RetentionPolicy := QueryConfig_RetentionPolicy q;
     QueryConfig_Fields := Some (elems (QueryConfig_Fields q));
     QueryConfig_Tags := Some (default ∅ (QueryConfig_Tags q));
     QueryConfig_GroupBy :=
       {| GroupBy_Time := GroupBy_Time (QueryConfig_GroupBy q);
          GroupBy_Tags := Some (elems (GroupBy_Tags (QueryConfig_GroupBy q))) |} |}.

(** What [postKapacitorRequest.Valid] accepts: a request whose name and
    url are both present and whose url parses with a scheme. *)
Definition accepted (req : postKapacitorRequest) : Prop :=
  exists (name purl : string) (url : URL),
    post_Name req = Some name /\ post_URL req = Some purl
    /\ ParseRequestURI purl = Ok url /\ URL_Scheme url ≠ "".

(** The response [KapacitorRulesGet] builds for one listed rule, when
    the status map has the rule's id. *)
Definition listed (srv : Server) (statuses : gmap string string) (rule : AlertRule)
    : option alertResponse :=
  let c := NewClient (Server_URL srv) (Server_Username srv) (Server_Password srv) in
  (fun status =>
     newAlertResponse rule (AlertRule_TICKScript rule)
       (Client_Href c (AlertRule_ID rule)) (Client_HrefOutput c (AlertRule_ID rule))
       status (Server_SrcID srv) (Server_ID srv))
    <$> statuses !! AlertRule_ID rule.

(** What C10 asks of a call of the update handler: it is the [Get] of
    the path's task id, or an [Update] that carries the path's task id
    in the rule and in the href, the rule being the request body with
    only its id replaced. *)
Definition update_goes_to (tid : string) (body : option AlertRule)
    (X : Type) (ev : call X) : Prop :=
  match ev with
  | Get _ id => id = tid
  | Update c href rule =>
      AlertRule_ID rule = tid /\ href = Client_Href c tid
      /\ exists req, body = Some req /\ rule = set_AlertRule_ID tid req
  | _ => False
  end.


(** A call that only reads from the engine. *)
Definition reads_only (X : Type) (ev : call X) : Prop :=
  match ev with
  | Get _ _ => True
  | All _ => True
  | AllStatus _ => True
  | Status _ _ => True
  | _ => False
  end.

(** A call of the status handler: the [Get] of the path's task id, an
    [Enable] of its href when the body says enabled, or a [Disable] of
    its href when the body says disabled. *)
Definition status_goes_to (tid : string) (body : option KapacitorStatus)
    (X : Type) (ev : call X) : Prop :=
  match ev with
  | Get _ id => id = tid
  | Enable c href =>
      href = Client_Href c tid
      /\ exists req, body = Some req /\ KapacitorStatus_Status req = "enabled"
  | Disable c href =>
      href = Client_Href c tid
      /\ exists req, body = Some req /\ KapacitorStatus_Status req = "disabled"
  | _ => False
  end.


(** A call of the create handler: the [Create] of the request body. *)
Definition create_sends (body : option AlertRule) (X : Type) (ev : call X) : Prop :=
  match ev with
  | Create _ rule => body = Some rule
  | _ => False
  end.

(** The request that overlays [later] on [earlier]: a field of [later]
    where it is present, the field of [earlier] otherwise. *)
Definition patch_overlay (later earlier : patchKapacitorRequest) : patchKapacitorRequest :=
  {| patch_Name := from_option Some (patch_Name earlier) (patch_Name later);
     patch_URL := from_option Some (patch_URL earlier) (patch_URL later);
     patch_Username := from_option Some (patch_Username earlier) (patch_Username later);
     patch_Password := from_option Some (patch_Password earlier) (patch_Password later);
     patch_Active := from_option Some (patch_Active earlier) (patch_Active later) |}.

(** A string in which the byte [/] does not occur. *)
Fixpoint no_slash (s : string) : Prop :=
  match s with
  | EmptyString => True
  | String c rest => c ≠ "/"%char /\ no_slash rest
  end.

End Service.

(** ** Collaborators to run the handlers on

    Concrete stores, a concrete engine and concrete library functions,
    used where a statement is evaluated on an example. *)

(** Modelled from the spec: the local registry is "a simple keyed
    store" of instances "keyed by instance id" (spec 1 and 6); its
    implementation is not in this file. [Add] gives the new instance an
    id that no stored instance has. *)
Definition registry_Get (st : list Server) (id : Z) : Result Server :=
  match find (fun s => bool_decide (Server_ID s = id)) st with
  | Some s => Ok s
  | None => Fail (errorString "server not found")
  end.

Definition registry_Add (st : list Server) (srv : Server) : list Server * Result Server :=
  let id := 1 + foldr Z.max 0 (Server_ID <$> st) in
  let srv := mkServer id (Server_SrcID srv) (Server_Name srv) (Server_Username srv)
               (Server_Password srv) (Server_URL srv) (Server_Active srv) in
  ((st ++ [srv])%list, Ok srv).

Definition registry_Update (st : list Server) (srv : Server) : list Server * option error :=
  match registry_Get st (Server_ID srv) with
  | Fail err => (st, Some err)
  | Ok _ =>
      ((fun s => if bool_decide (Server_ID s = Server_ID srv) then srv else s) <$> st, None)
  end.

Definition registry_Delete (st : list Server) (srv : Server) : list Server * option error :=
  match registry_Get st (Server_ID srv) with
  | Fail err => (st, Some err)
  | Ok _ => (filter (fun s => Server_ID s ≠ Server_ID srv) st, None)
  end.

Definition registry : ServersStore (list Server) :=
  {| ServersStore_All := fun st => Ok st;
     ServersStore_Add := registry_Add;
     ServersStore_Delete := registry_Delete;
     ServersStore_Get := registry_Get;
     ServersStore_Update := registry_Update |}.

(** Modelled from the spec: [SourceExists(sourceId)] (spec 6), here the
    list of the ids of the sources that exist. *)
Definition sources : SourcesStore (list Z) :=
  {| SourcesStore_Get := fun ss id =>
       if bool_decide (id ∈ ss) then None else Some (errorString "source not found") |}.

(** The escaping of [net/url.QueryEscape]: letters, digits and [-_.~]
    stay, a space becomes [+], any other byte [%XX] in upper-case hex. *)
Definition upperhex (n : N) : Ascii.ascii :=
  default "0"%char (String.get (N.to_nat n) "0123456789ABCDEF").

Definition shouldEscape (c : Ascii.ascii) : bool :=
  let n := Ascii.N_of_ascii c in
  negb (((97 <=? n) && (n <=? 122)) || ((65 <=? n) && (n <=? 90))
        || ((48 <=? n) && (n <=? 57))
        || (n =? 45) || (n =? 95) || (n =? 46) || (n =? 126))%N.

Fixpoint sample_QueryEscape (s : string) : string :=
  match s with
  | EmptyString => EmptyString
  | String c rest =>
      let n := Ascii.N_of_ascii c in
      (if (n =? 32)%N then "+"
       else if shouldEscape c
            then String "%"%char (String (upperhex (n / 16)) (String (upperhex (n mod 16)) EmptyString))
            else String c EmptyString)
        +:+ sample_QueryEscape rest
  end.

(** A parser that knows three strings: the URL of the source's own
    comment, which [net/url.ParseRequestURI] parses with scheme [http],
    the absolute path [/kapacitor], which it parses with no scheme, and
    the empty string, which it refuses, as it does every other string
    here. *)
Definition sample_ParseRequestURI (rawurl : string) : Result URL :=
  if bool_decide (rawurl = "http://localhost:9092") then Ok (mkURL "http")
  else if bool_decide (rawurl = "/kapacitor") then Ok (mkURL "")
  else if bool_decide (rawurl = "") then Fail (errorString "empty url")
  else Fail (errorString "invalid URI for request").

Definition sample_External : External :=
  {| ParseRequestURI := sample_ParseRequestURI;
     QueryEscape := sample_QueryEscape;
     ErrAlertNotFound_text := "alert not found";
     Sprintv_postKapacitorRequest := fun _ => "{}";
     Client_Href := fun _ id => "/kapacitor/v1/tasks/" +:+ id;
     Client_HrefOutput := fun _ id => "/kapacitor/v1/tasks/" +:+ id +:+ "/output" |}.

(** A canned engine: its state is the list of the tasks it knows and
    the list of the statuses it reports, by task id. It answers the
    calls the examples make and is unavailable for the others. *)
Definition sample_engine : engine (list AlertRule * list (string * string)) :=
  fun X ev e =>
    match ev in call X return (list AlertRule * list (string * string)) * X with
    | Create _ rule =>
        ((e.1 ++ [rule], e.2 ++ [(AlertRule_ID rule, "enabled")])%list,
         Ok (mkTask rule (AlertRule_TICKScript rule)
               ("/kapacitor/v1/tasks/" +:+ AlertRule_ID rule)
               ("/kapacitor/v1/tasks/" +:+ AlertRule_ID rule +:+ "/output")))
    | Get _ id =>
        (e, match find (fun t => bool_decide (AlertRule_ID t = id)) e.1 with
            | Some t => Ok t
            | None => Fail ErrAlertNotFound
            end)
    | Update _ href rule =>
        (((fun t => if bool_decide (AlertRule_ID t = AlertRule_ID rule) then rule else t)
            <$> e.1, e.2),
         Ok (mkTask rule (AlertRule_TICKScript rule) href (href +:+ "/output")))
    | Enable _ _ => (e, Fail (errorString "unavailable"))
    | Disable _ _ => (e, Fail (errorString "unavailable"))
    | Delete _ _ => (e, Some (errorString "unavailable"))
    | All _ => (e, Ok (Some e.1))
    | AllStatus _ => (e, Ok (list_to_map e.2))
    | Status _ _ => (e, Fail (errorString "unavailable"))
    end.

(** Sample data: one instance of source 1, a rule that aggregates
    without a window, a rule without a query, and an engine that knows
    both rules but reports a status for the first only. *)
Definition sample_srv : Server :=
  mkServer 1 1 "kapa1" "" "" "http://localhost:9092" true.

Definition sample_registry : list Server := [sample_srv].

Definition sample_query : QueryConfig :=
  mkQueryConfig "" "telegraf" "autogen" (Some [mkField "usage_user" (Some ["mean"])])
    None (mkGroupBy "" None).

Definition sample_rule_cpu : AlertRule :=
  mkAlertRule "cpu" "" (Some sample_query) "" None None "" "threshold" "" "cpu alert".

Definition sample_rule_mem : AlertRule :=
  mkAlertRule "mem" "" None "" None None "" "threshold" "" "mem alert".

Definition sample_tasks : list AlertRule * list (string * string) :=
  ([sample_rule_cpu; sample_rule_mem], [("cpu", "enabled")]).

Definition sample_patch : patchKapacitorRequest :=
  mkPatchKapacitorRequest (Some "kapa2") None None (Some "secret") None.

(** More sample data: a registry with instances of two sources, one of
    them with credentials; a creation request with credentials; a patch
    whose url has no scheme; an engine that also switches, reads the
    status of and deletes the task of an href; an engine that is down. *)
Definition sample_srv2 : Server :=
  mkServer 2 2 "kapa-b" "admin" "hunter2" "http://localhost:9093" false.

Definition sample_srv3 : Server :=
  mkServer 3 1 "kapa-c" "" "" "http://localhost:9094" true.

Definition sample_registry3 : list Server := [sample_srv; sample_srv2; sample_srv3].

Definition sample_post : postKapacitorRequest :=
  mkPostKapacitorRequest (Some "kapa1") (Some "http://localhost:9092") "admin" "hunter2" true.

Definition sample_patch_no_scheme : patchKapacitorRequest :=
  mkPatchKapacitorRequest (Some "kapa2") (Some "/kapacitor") None None None.

Definition task_of_href (href : string) (tasks : list AlertRule) : option AlertRule :=
  find (fun t => bool_decide ("/kapacitor/v1/tasks/" +:+ AlertRule_ID t = href)) tasks.

Definition sample_live_engine : engine (list AlertRule * list (string * string)) :=
  fun X ev e =>
    match ev in call X return (list AlertRule * list (string * string)) * X with
    | Create c rule => sample_engine _ (Create c rule) e
    | Get c id => sample_engine _ (Get c id) e
    | Update c href rule => sample_engine _ (Update c href rule) e
    | Enable _ href =>
        match task_of_href href e.1 with
        | Some t =>
            ((e.1, (AlertRule_ID t, "enabled") :: e.2),
             Ok (mkTask t (AlertRule_TICKScript t) href (href +:+ "/output")))
        | None => (e, Fail ErrAlertNotFound)
        end
    | Disable _ href =>
        match task_of_href href e.1 with
        | Some t =>
            ((e.1, (AlertRule_ID t, "disabled") :: e.2),
             Ok (mkTask t (AlertRule_TICKScript t) href (href +:+ "/output")))
        | None => (e, Fail ErrAlertNotFound)
        end
    | Delete _ href =>
        match task_of_href href e.1 with
        | Some t =>
            ((filter (fun t' => AlertRule_ID t' ≠ AlertRule_ID t) e.1, e.2), None)
        | None => (e, Some ErrAlertNotFound)
        end
    | All c => sample_engine _ (All c) e
    | AllStatus c => sample_engine _ (AllStatus c) e
    | Status _ href =>
        (e, match task_of_href href e.1 with
            | Some t =>
                match (list_to_map e.2 : gmap string string) !! AlertRule_ID t with
                | Some status => Ok status
                | None => Fail (errorString "no status")
                end
            | None => Fail ErrAlertNotFound
            end)
    end.

Definition sample_down_engine : engine unit :=
  fun X ev e =>
    let down := errorString "connection refused" in
    match ev in call X return unit * X with
    | Create _ _ => (e, Fail down)
    | Get _ _ => (e, Fail down)
    | Update _ _ _ => (e, Fail down)
    | Enable _ _ => (e, Fail down)
    | Disable _ _ => (e, Fail down)
    | Delete _ _ => (e, Some down)
    | All _ => (e, Fail down)
    | AllStatus _ => (e, Fail down)
    | Status _ _ => (e, Fail down)
    end.

(** A store that cannot be reached. *)
Definition offline_registry : ServersStore unit :=
  {| ServersStore_All := fun _ => Fail (errorString "store offline");
     ServersStore_Add := fun st _ => (st, Fail (errorString "store offline"));
     ServersStore_Delete := fun st _ => (st, Some (errorString "store offline"));
     ServersStore_Get := fun _ _ => Fail (errorString "store offline");
     ServersStore_Update := fun st _ => (st, Some (errorString "store offline")) |}.

(** * Properties *)

(** One step through a chain of [let]s: the bound value is first put in
    closed form, then substituted. *)
Ltac let_step :=
  match goal with
  | |- (let x := ?v in @?b x) = ?rhs => change (b v = rhs); cbv beta
  end.

Ltac let_value E tac :=
  match goal with
  | |- (let x := ?v in _) = _ => replace v with E by tac
  end.

Section Properties.

Context `{!External} {St Ss : Type} `{!ServersStore St} `{!SourcesStore Ss}.

(** ** The scope guard *)

Lemma scoped_inl (st : St) (id srcID : Z) (srv : Server) :
  scoped st id srcID = inl srv <->
  ServersStore_Get st id = Ok srv /\ Server_SrcID srv = srcID.
Proof.
  unfold scoped. destruct (ServersStore_Get st id) as [s|e].
  - destruct (decide (Server_SrcID s ≠ srcID)) as [Hne|Heq].
    + split; [discriminate|]. intros [[= ->] Hs]. contradiction.
    + apply dec_stable in Heq. split.
      * intros [= ->]. auto.
      * intros [[= ->] _]. reflexivity.
  - split; [discriminate|]. intros [[=] _].
Qed.


Lemma scoped_wrong_source (st : St) (id srcID : Z) (srv : Server) :
  ServersStore_Get st id = Ok srv -> srcID ≠ Server_SrcID srv ->
  scoped st id srcID = inr (notFound id).
Proof.
  intros Hget Hne. unfold scoped. rewrite Hget.
  destruct (decide (Server_SrcID srv ≠ srcID)) as [_|Heq]; [reflexivity|].
  apply dec_stable in Heq. congruence.
Qed.

Lemma scoped_absent (st : St) (id srcID : Z) (err : error) :
  ServersStore_Get st id = Fail err -> scoped st id srcID = inr (notFound id).
Proof. intros Hget. unfold scoped. rewrite Hget. reflexivity. Qed.

(** C1. An instance [I] that the store returns for its id resolves
    under its own source: [KapacitorsID] answers with [I]'s
    representation and [RemoveKapacitor] goes on to delete [I]. Under
    any other source [S'] both handlers answer [notFound] of the
    requested id, which is exactly the answer they give, under any
    source, when the store has no instance of that id. *)
Theorem C1_scope_resolution (st : St) (I : Server) :
  ServersStore_Get st (Server_ID I) = Ok I ->
  let id := Server_ID I in
  let S := Server_SrcID I in
  (scoped st id S = inl I
   /\ KapacitorsID st (Ok id) (Ok S)
      = encodeJSON None StatusOK (body_kapacitor (newKapacitor I))
   /\ RemoveKapacitor st (Ok id) (Ok S)
      = ((ServersStore_Delete st I).1,
         match (ServersStore_Delete st I).2 with
         | Some err => unknownErrorWithMessage err
         | None => WriteHeader StatusNoContent
         end))
  /\ forall S' : Z, S' ≠ S ->
       KapacitorsID st (Ok id) (Ok S') = notFound id
       /\ RemoveKapacitor st (Ok id) (Ok S') = (st, notFound id)
       /\ forall (st0 : St) (err : error) (S0 : Z),
            ServersStore_Get st0 id = Fail err ->
            KapacitorsID st0 (Ok id) (Ok S0) = KapacitorsID st (Ok id) (Ok S')
            /\ (RemoveKapacitor st0 (Ok id) (Ok S0)).2
               = (RemoveKapacitor st (Ok id) (Ok S')).2.
Proof.
  intros Hget id S.
  assert (Hin : scoped st id S = inl I) by (apply scoped_inl; auto).
  split.
  - split; [exact Hin|]. unfold KapacitorsID, RemoveKapacitor. rewrite Hin.
    split; [reflexivity|]. destruct (ServersStore_Delete st I) as [st' [e|]]; reflexivity.
  - intros S' HS'.
    assert (Hout : scoped st id S' = inr (notFound id))
      by (apply (scoped_wrong_source st id S' I); auto).
    unfold KapacitorsID, RemoveKapacitor. rewrite Hout.
    split; [reflexivity|]. split; [reflexivity|].
    intros st0 err S0 Hget0. rewrite (scoped_absent st0 id S0 err Hget0). auto.
Qed.

(** ** Status values *)

(** C7. [KapacitorStatus.Valid] returns nil exactly for the two strings
    [enabled] and [disabled], and for every other string the error
    whose text is [Invalid Kapacitor status: ] followed by the string. *)
Theorem C7_status_valid (k : KapacitorStatus) :
  KapacitorStatus_Valid (mkKapacitorStatus "enabled") = None
  /\ KapacitorStatus_Valid (mkKapacitorStatus "disabled") = None
  /\ (KapacitorStatus_Valid k = None <->
      KapacitorStatus_Status k = "enabled" \/ KapacitorStatus_Status k = "disabled")
  /\ (KapacitorStatus_Status k ≠ "enabled" -> KapacitorStatus_Status k ≠ "disabled" ->
      KapacitorStatus_Valid k
      = Some (errorString ("Invalid Kapacitor status: " +:+ KapacitorStatus_Status k))).
Proof.
  split; [reflexivity|]. split; [reflexivity|].
  unfold KapacitorStatus_Valid.
  destruct (bool_decide_reflect (KapacitorStatus_Status k = "enabled")) as [He|He];
    destruct (bool_decide_reflect (KapacitorStatus_Status k = "disabled")) as [Hd|Hd];
    simpl; split; try tauto; try (split; [reflexivity | tauto]);
    try (intros; contradiction).
  split; [discriminate | tauto].
Qed.
(** ** Instance update *)

(** C6. The update of an instance is a partial merge. Of the instance
    [srv] that the scope guard resolved, each of name, url, username,
    password and active keeps its stored value where the request has nil
    and takes the request's value where it has one; id and source id are
    never touched. For a request that passes [Valid], this merged
    instance is what [UpdateKapacitor] hands to the store's [Update] and
    what it answers with. *)
Theorem C6_update_partial_merge (srv : Server) (req : patchKapacitorRequest) :
  let srv' := patch_assign req srv in
  (Server_Name srv' = default (Server_Name srv) (patch_Name req)
   /\ Server_URL srv' = default (Server_URL srv) (patch_URL req)
   /\ Server_Username srv' = default (Server_Username srv) (patch_Username req)
   /\ Server_Password srv' = default (Server_Password srv) (patch_Password req)
   /\ Server_Active srv' = default (Server_Active srv) (patch_Active req)
   /\ Server_ID srv' = Server_ID srv
   /\ Server_SrcID srv' = Server_SrcID srv)
  /\ forall (st : St) (id srcID : Z),
       scoped st id srcID = inl srv ->
       patchKapacitorRequest_Valid req = None ->
       UpdateKapacitor st (Ok id) (Ok srcID) (Some req)
       = ((ServersStore_Update st srv').1,
          match (ServersStore_Update st srv').2 with
          | Some _ =>
              Error StatusInternalServerError ("Error updating kapacitor ID " +:+ Sprintd id)
          | None => encodeJSON None StatusOK (body_kapacitor (newKapacitor srv'))
          end).
Proof.
  intros srv'. split.
  - subst srv'. destruct srv.
    destruct req as [[n|] [u|] [un|] [pw|] [a|]]; repeat split; reflexivity.
  - intros st id srcID Hsc Hvalid. unfold UpdateKapacitor.
    rewrite Hsc, Hvalid. fold srv'.
    destruct (ServersStore_Update st srv') as [st' [e|]]; reflexivity.
Qed.

(** ** Alert responses *)

Lemma range_skip {A S : Type} (s : slice A) (st : S) :
  range s (fun _ acc => acc) st = st.
Proof. unfold range. induction (elems s) as [|x l IH]; simpl; auto. Qed.

Lemma append_assoc (a b c : string) : (a +:+ b) +:+ c = a +:+ b +:+ c.
Proof.
  induction a as [|x a IH]; [reflexivity|].
  change (String x ((a +:+ b) +:+ c) = String x (a +:+ b +:+ c)). by rewrite IH.
Qed.

Lemma newAlertResponse_fields (rule : AlertRule)
    (tickScript href hrefOutput status : string) (srcID kapaID : Z) :
  newAlertResponse rule tickScript href hrefOutput status srcID kapaID
  = {| alertResponse_AlertRule :=
         {| AlertRule_ID := AlertRule_ID rule;
            AlertRule_TICKScript := AlertRule_TICKScript rule;
            AlertRule_Query := normalized_query (AlertRule_ID rule) <$> AlertRule_Query rule;
            AlertRule_Every := AlertRule_Every rule;
            AlertRule_Alerts := Some (elems (AlertRule_Alerts rule));
            AlertRule_AlertNodes := Some (elems (AlertRule_AlertNodes rule));
            AlertRule_Message := AlertRule_Message rule;
            AlertRule_Trigger := AlertRule_Trigger rule;
            AlertRule_TriggerValues := AlertRule_TriggerValues rule;
            AlertRule_Name := AlertRule_Name rule |};
       alertResponse_TICKScript := tickScript;
       alertResponse_Status := status;
       alertResponse_Links :=
         {| alertLinks_Self :=
              "/chronograf/v1/sources/" +:+ Sprintd srcID +:+ "/kapacitors/"
                +:+ Sprintd kapaID +:+ "/rules/" +:+ AlertRule_ID rule;
            alertLinks_Kapacitor :=
              "/chronograf/v1/sources/" +:+ Sprintd srcID +:+ "/kapacitors/"
                +:+ Sprintd kapaID +:+ "/proxy?path=" +:+ QueryEscape href;
            alertLinks_Output :=
              "/chronograf/v1/sources/" +:+ Sprintd srcID +:+ "/kapacitors/"
                +:+ Sprintd kapaID +:+ "/proxy?path=" +:+ QueryEscape hrefOutput |} |}.
Proof.
  destruct rule as [id ts oq ev al nodes msg tr tv nm].
  cbv beta delta [newAlertResponse].
  match goal with
  | |- context [mkAlertLinks ?a ?b ?c] => generalize (mkAlertLinks a b c)
  end.
  intros links. let_step.
  let_value (mkAlertResponse (mkAlertRule id ts oq ev (Some (elems al)) nodes msg tr tv nm)
               tickScript status links) ltac:(by destruct al).
  let_step.
  let_value (mkAlertResponse
               (mkAlertRule id ts oq ev (Some (elems al)) (Some (elems nodes)) msg tr tv nm)
               tickScript status links) ltac:(by destruct nodes).
  let_step. rewrite range_skip. cbn [alertResponse_AlertRule AlertRule_Query].
  destruct oq as [q|]; [|reflexivity].
  destruct q as [qid db rp fs tags [gt gtags]].
  unfold normalized_query.
  cbn -[range decide]. rewrite range_skip.
  destruct (decide (qid = "")), fs, gtags, tags; reflexivity.
Qed.

(** C8. The links are functions of the source id, the instance id, the
    rule id and the engine hrefs alone. The self link of an instance is
    [/chronograf/v1/sources/{sourceId}/kapacitors/{id}]; the kapacitor
    and output links of a rule response are the same proxy endpoint
    [/sources/{sourceId}/kapacitors/{instanceId}/proxy?path=] under
    [/chronograf/v1], followed by the escaped href and the escaped
    output href. *)
Theorem C8_links (srv : Server) (rule : AlertRule)
    (tickScript href hrefOutput status : string) (srcID kapaID : Z) :
  kapaLinks_Self (kapacitor_Links (newKapacitor srv))
  = "/chronograf/v1/sources/" +:+ Sprintd (Server_SrcID srv)
      +:+ "/kapacitors/" +:+ Sprintd (Server_ID srv)
  /\ let proxy :=
       "/sources/" +:+ Sprintd srcID +:+ "/kapacitors/" +:+ Sprintd kapaID
         +:+ "/proxy?path=" in
     let res := newAlertResponse rule tickScript href hrefOutput status srcID kapaID in
     alertLinks_Kapacitor (alertResponse_Links res)
     = "/chronograf/v1" +:+ proxy +:+ QueryEscape href
     /\ alertLinks_Output (alertResponse_Links res)
        = "/chronograf/v1" +:+ proxy +:+ QueryEscape hrefOutput
     /\ forall (rule' : AlertRule) (tickScript' status' : string),
          AlertRule_ID rule' = AlertRule_ID rule ->
          alertResponse_Links
            (newAlertResponse rule' tickScript' href hrefOutput status' srcID kapaID)
          = alertResponse_Links res.
Proof.
  split; [reflexivity|]. intros proxy res. subst proxy res.
  rewrite newAlertResponse_fields. simpl.
  rewrite !append_assoc. simpl.
  split; [reflexivity|]. split; [reflexivity|].
  intros rule' tickScript' status' Hid.
  rewrite newAlertResponse_fields. simpl. rewrite Hid. reflexivity.
Qed.

(** The collections that [newAlertResponse] makes itself are never nil. *)
Lemma newAlertResponse_collections_made (rule : AlertRule)
    (tickScript href hrefOutput status : string) (srcID kapaID : Z) :
  let res := alertResponse_AlertRule
               (newAlertResponse rule tickScript href hrefOutput status srcID kapaID) in
  is_nil (AlertRule_Alerts res) = false
  /\ is_nil (AlertRule_AlertNodes res) = false
  /\ forall q, AlertRule_Query res = Some q ->
       is_nil (QueryConfig_Fields q) = false
       /\ is_nil (GroupBy_Tags (QueryConfig_GroupBy q)) = false
       /\ is_nil (QueryConfig_Tags q) = false.
Proof.
  rewrite newAlertResponse_fields. simpl. split; [reflexivity|]. split; [reflexivity|].
  intros q. destruct (AlertRule_Query rule) as [q0|]; simpl; [|discriminate].
  intros [= <-]. simpl. auto.
Qed.

(** The elements of [AlertNodes] and of [Query.Fields] leave
    [newAlertResponse] as they entered it: the assignments made inside
    the range loops are made to copies. *)
Lemma newAlertResponse_elements_kept (rule : AlertRule)
    (tickScript href hrefOutput status : string) (srcID kapaID : Z) :
  let res := alertResponse_AlertRule
               (newAlertResponse rule tickScript href hrefOutput status srcID kapaID) in
  elems (AlertRule_AlertNodes res) = elems (AlertRule_AlertNodes rule)
  /\ (elems ∘ QueryConfig_Fields) <$> AlertRule_Query res
     = (elems ∘ QueryConfig_Fields) <$> AlertRule_Query rule.
Proof.
  rewrite newAlertResponse_fields. simpl. split; [reflexivity|].
  destruct (AlertRule_Query rule) as [q0|]; reflexivity.
Qed.

(** C2, on the code. A rule with one alert node that has nil [args] and
    one property with nil [args], and with one query field that has nil
    [funcs], leaves [newAlertResponse] with all three still nil, where
    the claim promises empty sequences. *)
Theorem C2_nested_collections_stay_nil :
  let node := mkKapacitorNode "slack" None (Some [mkKapacitorProperty "channel" None]) in
  let q := mkQueryConfig "" "telegraf" "autogen" (Some [mkField "usage_user" None])
             None (mkGroupBy "" None) in
  let rule := mkAlertRule "rule1" "" (Some q) "" None (Some [node]) "" "" "" "cpu" in
  let res := alertResponse_AlertRule
               (newAlertResponse rule "" "/kapacitor/v1/tasks/rule1"
                  "/kapacitor/v1/tasks/rule1/output" "enabled" 1 1) in
  AlertRule_AlertNodes res
  = Some [mkKapacitorNode "slack" None (Some [mkKapacitorProperty "channel" None])]
  /\ QueryConfig_Fields <$> AlertRule_Query res = Some (Some [mkField "usage_user" None]).
Proof. cbv zeta. rewrite newAlertResponse_fields. split; reflexivity. Qed.

(** C3, as amended. For a rule with a query [q], the response's query id
    is the rule's id when [q]'s id is empty and [q]'s id, verbatim, when
    it is not; so it equals the rule's id exactly when [q]'s id was
    empty or was the rule's id already. *)
Theorem C3_query_id_default (rule : AlertRule) (q : QueryConfig)
    (tickScript href hrefOutput status : string) (srcID kapaID : Z) :
  AlertRule_Query rule = Some q ->
  exists q',
    AlertRule_Query
      (alertResponse_AlertRule
         (newAlertResponse rule tickScript href hrefOutput status srcID kapaID)) = Some q'
    /\ (QueryConfig_ID q = "" -> QueryConfig_ID q' = AlertRule_ID rule)
    /\ (QueryConfig_ID q ≠ "" -> QueryConfig_ID q' = QueryConfig_ID q)
    /\ (QueryConfig_ID q' = AlertRule_ID rule <->
        QueryConfig_ID q = "" \/ QueryConfig_ID q = AlertRule_ID rule).
Proof.
  intros Hq. rewrite newAlertResponse_fields. simpl. rewrite Hq. simpl.
  eexists. split; [reflexivity|]. simpl.
  destruct (decide (QueryConfig_ID q = "")) as [He|Hne].
  - split; [auto|]. split; [contradiction|]. tauto.
  - split; [contradiction|]. split; [auto|]. tauto.
Qed.

(** ** Rule validation *)

Lemma hasFuncs_loop_true (fields : list Field) :
  hasFuncs_loop fields = true <->
  exists f, f ∈ fields /\ (0 < len (Field_Funcs f))%nat.
Proof.
  induction fields as [|f fields IH]; simpl.
  - split; [discriminate|]. intros (f & Hf & _). by apply elem_of_nil in Hf.
  - destruct (bool_decide_reflect (0 < len (Field_Funcs f))%nat) as [Hlt|Hge].
    + split; [|reflexivity]. intros _. exists f. split; [left|exact Hlt].
    + rewrite IH. split.
      * intros (g & Hg & Hlen). exists g. split; [by right|exact Hlen].
      * intros (g & Hg & Hlen). apply elem_of_cons in Hg as [->|Hg]; [contradiction|].
        exists g. auto.
Qed.

Lemma hasFuncs_loop_false (fields : list Field) :
  hasFuncs_loop fields = false <->
  forall f, f ∈ fields -> len (Field_Funcs f) = 0%nat.
Proof.
  rewrite <- not_true_iff_false, hasFuncs_loop_true. split.
  - intros Hno f Hf. destruct (len (Field_Funcs f)) eqn:E; [reflexivity|].
    exfalso. apply Hno. exists f. split; [exact Hf|]. rewrite E. lia.
  - intros Hall (f & Hf & Hlen). rewrite (Hall f Hf) in Hlen. lia.
Qed.

(** C4. [ValidRuleRequest] returns an error for a rule with no query,
    and for a rule whose query has a field with a non-empty [funcs]
    while [every] is empty; it returns nil for a rule with a query whose
    fields all have empty [funcs], whatever [every] is, and for a rule
    with a query whose [every] is not empty. *)
Theorem C4_ValidRuleRequest (rule : AlertRule) :
  (AlertRule_Query rule = None ->
   ValidRuleRequest rule = Some (errorString "invalid alert rule: no query defined"))
  /\ (forall q : QueryConfig,
        AlertRule_Query rule = Some q ->
        let fields := elems (QueryConfig_Fields q) in
        ((exists f, f ∈ fields /\ (0 < len (Field_Funcs f))%nat) ->
         AlertRule_Every rule = "" ->
         ValidRuleRequest rule
         = Some (errorString ("invalid alert rule: functions require an "
                                +:+ dquote +:+ "every" +:+ dquote +:+ " window")))
        /\ ((forall f, f ∈ fields -> len (Field_Funcs f) = 0%nat) ->
            ValidRuleRequest rule = None)
        /\ (AlertRule_Every rule ≠ "" -> ValidRuleRequest rule = None))
  /\ (is_Some (ValidRuleRequest rule) <->
      AlertRule_Query rule = None
      \/ exists q f, AlertRule_Query rule = Some q /\ AlertRule_Every rule = ""
                     /\ f ∈ elems (QueryConfig_Fields q)
                     /\ (0 < len (Field_Funcs f))%nat).
Proof.
  unfold ValidRuleRequest. destruct (AlertRule_Query rule) as [q|].
  - split; [discriminate|]. split.
    + intros q' Hq. injection Hq as <-. cbv zeta. split; [|split].
      * intros Hex Hev. apply hasFuncs_loop_true in Hex. rewrite Hex.
        rewrite bool_decide_eq_true_2 by exact Hev. reflexivity.
      * intros Hall. apply hasFuncs_loop_false in Hall. rewrite Hall.
        rewrite andb_false_r. reflexivity.
      * intros Hev. rewrite bool_decide_eq_false_2 by exact Hev. reflexivity.
    + destruct (bool_decide_reflect (AlertRule_Every rule = "")) as [Hev|Hev]; simpl.
      * destruct (hasFuncs_loop (elems (QueryConfig_Fields q))) eqn:Hf.
        -- split; [|eauto]. intros _. right.
           apply hasFuncs_loop_true in Hf as (f & Hin & Hlen). exists q, f. auto.
        -- split; [intros [x [=]]|]. intros [[=]|(q' & f & [= <-] & _ & Hin & Hlen)].
           apply not_true_iff_false in Hf. exfalso. apply Hf.
           apply hasFuncs_loop_true. eauto.
      * split; [intros [x [=]]|]. intros [[=]|(q' & f & _ & Hev' & _)]. contradiction.
  - split; [reflexivity|]. split; [discriminate|]. split; eauto.
Qed.

(** ** Instance creation *)

Lemma length_zero_iff_empty (s : string) : String.length s = 0%nat <-> s = "".
Proof. destruct s; simpl; split; (reflexivity || discriminate). Qed.

Lemma postKapacitorRequest_Valid_nil (req : postKapacitorRequest) :
  postKapacitorRequest_Valid req = None <-> accepted req.
Proof.
  unfold postKapacitorRequest_Valid, accepted.
  destruct (post_Name req) as [name|], (post_URL req) as [purl|].
  - destruct (ParseRequestURI purl) as [url|err] eqn:Hparse.
    + destruct (decide (String.length (URL_Scheme url) = 0%nat)) as [Hz|Hnz].
      * split; [discriminate|]. intros (n & p & u & _ & [= <-] & Hp & Hs).
        rewrite Hparse in Hp. injection Hp as <-.
        apply length_zero_iff_empty in Hz. contradiction.
      * split; [|reflexivity]. intros _. exists name, purl, url.
        repeat split; auto. intros Hs. apply Hnz. by apply length_zero_iff_empty.
    + split; [discriminate|]. intros (n & p & u & _ & [= <-] & Hp & _).
      rewrite Hparse in Hp. discriminate.
  - split; [discriminate|]. intros (n & p & u & _ & [=] & _).
  - split; [discriminate|]. intros (n & p & u & [=] & _).
  - split; [discriminate|]. intros (n & p & u & [=] & _).
Qed.

(** X16. [NewKapacitor] never dereferences a nil pointer: [*req.Name]
    and [*req.URL] are reached only after [Valid] has returned nil, and
    [Valid] returns nil only when both are present. *)
Lemma NewKapacitor_never_panics (ss : Ss) (st : St) (id : Result Z)
    (body : option postKapacitorRequest) :
  (NewKapacitor ss st id body).2 ≠ panic.
Proof.
  unfold NewKapacitor. destruct id as [srcID|err]; [|discriminate].
  destruct (SourcesStore_Get ss srcID); [discriminate|].
  destruct body as [req|]; [|discriminate].
  destruct (postKapacitorRequest_Valid req) eqn:Hv; [discriminate|].
  apply postKapacitorRequest_Valid_nil in Hv as (n & p & u & -> & -> & _).
  destruct (ServersStore_Add st _) as [st' [srv|err]]; discriminate.
Qed.

(** C5, as amended. Creation requires name and url to be present (not
    nil) and the url to parse with a non-empty scheme, and nothing more:
    [Valid] returns nil exactly for such requests. A request that
    misses one of the three is answered with [invalidData] and the store
    is left alone, when the source exists; when the source does not
    exist the answer is [notFound] of the source, whatever the body. *)
Theorem C5_creation_requirements (ss : Ss) (st : St) (srcID : Z)
    (req : postKapacitorRequest) :
  (postKapacitorRequest_Valid req = None <-> accepted req)
  /\ (~ accepted req ->
      exists err : error,
        postKapacitorRequest_Valid req = Some err
        /\ (SourcesStore_Get ss srcID = None ->
            NewKapacitor ss st (Ok srcID) (Some req) = (st, Wrote (invalidData err))))
  /\ (forall body : option postKapacitorRequest,
        is_Some (SourcesStore_Get ss srcID) ->
        NewKapacitor ss st (Ok srcID) body = (st, Wrote (notFound srcID))).
Proof.
  split; [apply postKapacitorRequest_Valid_nil|]. split.
  - intros Hno. destruct (postKapacitorRequest_Valid req) as [err|] eqn:Hv.
    + exists err. split; [reflexivity|]. intros Hsrc.
      unfold NewKapacitor. rewrite Hsrc, Hv. reflexivity.
    + exfalso. apply Hno. by apply postKapacitorRequest_Valid_nil.
  - intros body [e He]. unfold NewKapacitor. rewrite He. reflexivity.
Qed.

(** ** The rule listing *)

Lemma rules_loop (srv : Server) (statuses : gmap string string)
    (rules : list AlertRule) (acc : list alertResponse) :
  fold_left
    (fun res rule =>
       match statuses !! AlertRule_ID rule with
       | None => res
       | Some status =>
           {| allAlertsResponse_Rules :=
                append (allAlertsResponse_Rules res)
                  (newAlertResponse rule (AlertRule_TICKScript rule)
                     (Client_Href
                        (NewClient (Server_URL srv) (Server_Username srv) (Server_Password srv))
                        (AlertRule_ID rule))
                     (Client_HrefOutput
                        (NewClient (Server_URL srv) (Server_Username srv) (Server_Password srv))
                        (AlertRule_ID rule))
                     status (Server_SrcID srv) (Server_ID srv)) |}
       end)
    rules {| allAlertsResponse_Rules := Some acc |}
  = {| allAlertsResponse_Rules := Some (acc ++ omap (listed srv statuses) rules)%list |}.
Proof.
  revert acc. induction rules as [|rule rules IH]; intros acc; simpl.
  - by rewrite app_nil_r.
  - assert (Hl : listed srv statuses rule
                 = (fun status =>
                      newAlertResponse rule (AlertRule_TICKScript rule)
                        (Client_Href
                           (NewClient (Server_URL srv) (Server_Username srv) (Server_Password srv))
                           (AlertRule_ID rule))
                        (Client_HrefOutput
                           (NewClient (Server_URL srv) (Server_Username srv) (Server_Password srv))
                           (AlertRule_ID rule))
                        status (Server_SrcID srv) (Server_ID srv))
                     <$> statuses !! AlertRule_ID rule) by reflexivity.
    destruct (statuses !! AlertRule_ID rule) as [status|]; rewrite Hl; simpl.
    + unfold append. simpl. rewrite IH. by rewrite <- app_assoc.
    + apply IH.
Qed.

Lemma newAlertResponse_ID (rule : AlertRule)
    (tickScript href hrefOutput status : string) (srcID kapaID : Z) :
  AlertRule_ID
    (alertResponse_AlertRule
       (newAlertResponse rule tickScript href hrefOutput status srcID kapaID))
  = AlertRule_ID rule.
Proof. by rewrite newAlertResponse_fields. Qed.

Lemma newAlertResponse_Status (rule : AlertRule)
    (tickScript href hrefOutput status : string) (srcID kapaID : Z) :
  alertResponse_Status
    (newAlertResponse rule tickScript href hrefOutput status srcID kapaID)
  = status.
Proof. by rewrite newAlertResponse_fields. Qed.

(** C9. When the engine lists [rules] and the status map [statuses],
    [KapacitorRulesGet] answers with the responses of the listed rules
    whose id is in the status map, in the order of the listing: each
    such rule is there with the status the map gives its id, and no
    response carries the id of a rule that the map does not have. *)
Theorem C9_rules_listing {E : Type} (h : engine E) (e e1 e2 : E)
    (st : St) (id srcID : Z) (srv : Server)
    (rules : slice AlertRule) (statuses : gmap string string) :
  let c := NewClient (Server_URL srv) (Server_Username srv) (Server_Password srv) in
  scoped st id srcID = inl srv ->
  h _ (All c) e = (e1, Ok rules) ->
  h _ (AllStatus c) e1 = (e2, Ok statuses) ->
  let rs := omap (listed srv statuses) (elems rules) in
  run h (KapacitorRulesGet st (Ok id) (Ok srcID)) e
  = (e2, encodeJSON None StatusOK
           (body_allAlertsResponse {| allAlertsResponse_Rules := Some rs |}))
  /\ (forall (rule : AlertRule) (status : string),
        rule ∈ elems rules -> statuses !! AlertRule_ID rule = Some status ->
        exists ar, ar ∈ rs
                   /\ AlertRule_ID (alertResponse_AlertRule ar) = AlertRule_ID rule
                   /\ alertResponse_Status ar = status)
  /\ (forall ar : alertResponse,
        ar ∈ rs ->
        exists rule, rule ∈ elems rules
                     /\ AlertRule_ID (alertResponse_AlertRule ar) = AlertRule_ID rule
                     /\ statuses !! AlertRule_ID rule = Some (alertResponse_Status ar))
  /\ (forall rule : AlertRule,
        statuses !! AlertRule_ID rule = None ->
        forall ar, ar ∈ rs ->
                   AlertRule_ID (alertResponse_AlertRule ar) ≠ AlertRule_ID rule).
Proof.
  intros c Hsc Hall Hstat rs.
  assert (Hback : forall ar, ar ∈ rs ->
            exists rule, rule ∈ elems rules
              /\ AlertRule_ID (alertResponse_AlertRule ar) = AlertRule_ID rule
              /\ statuses !! AlertRule_ID rule = Some (alertResponse_Status ar)).
  { intros ar Har. apply list_elem_of_omap in Har as (rule & Hin & Hl).
    exists rule. split; [exact Hin|]. unfold listed in Hl.
    destruct (statuses !! AlertRule_ID rule) as [status|]; simpl in Hl; [|discriminate].
    injection Hl as <-.
    rewrite newAlertResponse_ID, newAlertResponse_Status. auto. }
  split; [|split; [|split]].
  - unfold KapacitorRulesGet. rewrite Hsc. simpl. fold c. rewrite Hall. simpl.
    rewrite Hstat. simpl. unfold range. subst c. rewrite rules_loop. reflexivity.
  - intros rule status Hin Hs.
    eexists. split.
    + apply list_elem_of_omap. exists rule. split; [exact Hin|].
      unfold listed. rewrite Hs. reflexivity.
    + rewrite newAlertResponse_ID, newAlertResponse_Status. auto.
  - exact Hback.
  - intros rule Hnone ar Har Hid.
    destruct (Hback ar Har) as (rule' & _ & Hid' & Hs'). congruence.
Qed.

(** ** Rule update *)

(** C10. Whatever the store, the path parameters and the request body,
    and whatever the engine answers, [KapacitorRulesPut] sends the
    engine nothing but the [Get] of the path's task id and an [Update]
    that carries that id: the rule sent is the body with its id
    overwritten by [tid], and the href is [c.Href(tid)]. Two bodies that
    differ in their id only make the handler send the same calls. And
    the [Update] is sent: when the instance resolves, the body decodes
    and the engine has the task, the call after [Get] is the [Update] of
    [c.Href(tid)] with the body under the id [tid]. *)
Theorem C10_update_carries_path_id (st : St) (kid id : Result Z) (tid : string)
    (body : option AlertRule) :
  every_call (update_goes_to tid body) (KapacitorRulesPut st kid id tid body)
  /\ (forall (req : AlertRule) (bodyid : string),
        KapacitorRulesPut st kid id tid (Some (set_AlertRule_ID bodyid req))
        = KapacitorRulesPut st kid id tid (Some req))
  /\ (forall (id' srcID : Z) (srv : Server) (req found : AlertRule),
        kid = Ok id' -> id = Ok srcID -> scoped st id' srcID = inl srv ->
        body = Some req ->
        let c := NewClient (Server_URL srv) (Server_Username srv) (Server_Password srv) in
        exists k1 k2,
          KapacitorRulesPut st kid id tid body = Call (Get c tid) k1
          /\ k1 (Ok found)
             = Call (Update c (Client_Href c tid) (set_AlertRule_ID tid req)) k2).
Proof.
  split; [|split].
  - unfold KapacitorRulesPut.
    destruct kid as [id'|?]; [|exact I]. destruct id as [srcID|?]; [|exact I].
    destruct (scoped st id' srcID) as [srv|r]; [|exact I].
    destruct body as [req|]; [|exact I].
    simpl. split; [reflexivity|]. intros [rule|err]; simpl.
    + split.
      * split; [by destruct req|]. split; [reflexivity|]. eauto.
      * intros [task|err]; exact I.
    + exact I.
  - intros req bodyid. unfold KapacitorRulesPut.
    destruct kid as [id'|?]; [|reflexivity]. destruct id as [srcID|?]; [|reflexivity].
    destruct (scoped st id' srcID) as [srv|r]; reflexivity.
  - intros id' srcID srv req found -> -> Hsc -> c.
    unfold KapacitorRulesPut. rewrite Hsc. simpl.
    eexists _, _. split; reflexivity.
Qed.

(** * Further properties of the handlers *)

(** ** The listing of instances *)

Lemma Kapacitors_loop (srcID : Z) (mrSrvs : list Server) (acc : list kapacitor) :
  fold_left
    (fun srvs srv =>
       if decide (Server_SrcID srv = srcID) then append srvs (newKapacitor srv) else srvs)
    mrSrvs (Some acc)
  = Some (acc ++ (newKapacitor <$> filter (fun srv => Server_SrcID srv = srcID) mrSrvs))%list.
Proof.
  revert acc. induction mrSrvs as [|srv l IH]; intros acc; simpl.
  - by rewrite app_nil_r.
  - rewrite filter_cons. destruct (decide (Server_SrcID srv = srcID)) as [Heq|Hne].
    + unfold append. simpl. rewrite IH. by rewrite <- app_assoc.
    + apply IH.
Qed.

(** X1. [Kapacitors] answers with the representations of exactly the
    stored instances whose source is the requested one, in the order of
    the store, in a slice that is never nil; when the store cannot list
    its instances the answer is a 500 with a fixed text. *)
Theorem Kapacitors_lists_the_source (st : St) (srcID : Z) :
  (forall mrSrvs : list Server,
     ServersStore_All st = Ok mrSrvs ->
     Kapacitors st (Ok srcID)
     = encodeJSON None StatusOK
         (body_kapacitors
            {| kapacitors_Kapacitors :=
                 Some (newKapacitor
                         <$> filter (fun srv => Server_SrcID srv = srcID) mrSrvs) |}))
  /\ (forall err : error,
        ServersStore_All st = Fail err ->
        Kapacitors st (Ok srcID)
        = Error StatusInternalServerError "Error loading kapacitors").
Proof.
  split.
  - intros mrSrvs Hall. unfold Kapacitors. rewrite Hall. unfold range. simpl.
    rewrite Kapacitors_loop. reflexivity.
  - intros err Hall. unfold Kapacitors. rewrite Hall. reflexivity.
Qed.

(** ** Credentials *)



(** ** The scope guard of the rule handlers *)

Lemma scoped_out (st : St) (id srcID : Z) :
  (forall srv, ServersStore_Get st id = Ok srv -> Server_SrcID srv ≠ srcID) ->
  scoped st id srcID = inr (notFound id).
Proof.
  intros Hno. unfold scoped. destruct (ServersStore_Get st id) as [srv|err]; [|reflexivity].
  destruct (decide (Server_SrcID srv ≠ srcID)) as [_|Heq]; [reflexivity|].
  apply dec_stable in Heq. exfalso. by apply (Hno srv).
Qed.

(** X3. When the store has no instance of the requested id under the
    requested source, each of the six rule handlers answers [notFound]
    of the instance id at once: no call reaches the engine, and the
    request body is not looked at. *)
Theorem rule_handlers_stop_at_the_scope_guard (st : St) (id srcID : Z) (tid : string)
    (rule : option AlertRule) (status : option KapacitorStatus) :
  (forall srv, ServersStore_Get st id = Ok srv -> Server_SrcID srv ≠ srcID) ->
  KapacitorRulesPost st (Ok id) (Ok srcID) rule = Ret (notFound id)
  /\ KapacitorRulesPut st (Ok id) (Ok srcID) tid rule = Ret (notFound id)
  /\ KapacitorRulesStatus st (Ok id) (Ok srcID) tid status = Ret (notFound id)
  /\ KapacitorRulesGet st (Ok id) (Ok srcID) = Ret (notFound id)
  /\ KapacitorRulesID st (Ok id) (Ok srcID) tid = Ret (notFound id)
  /\ KapacitorRulesDelete st (Ok id) (Ok srcID) tid = Ret (notFound id).
Proof.
  intros Hno. apply scoped_out in Hno.
  unfold KapacitorRulesPost, KapacitorRulesPut, KapacitorRulesStatus,
    KapacitorRulesGet, KapacitorRulesID, KapacitorRulesDelete.
  rewrite Hno. repeat split.
Qed.

(** ** Path parameters *)

(** X4. A path id that does not parse stops every handler with a 422
    carrying the parse error's text; the store is not written and the
    engine is not called. The instance id is read before the source
    id, so when both are bad it is the instance id's error that is
    reported. *)
Theorem bad_path_ids_are_unprocessable (ss : Ss) (st : St) (kid id : Result Z)
    (err : error) (tid : string)
    (post : option postKapacitorRequest) (patch : option patchKapacitorRequest)
    (rule : option AlertRule) (status : option KapacitorStatus) :
  let r := Error StatusUnprocessableEntity (error_Error err) in
  (NewKapacitor ss st (Fail err) post = (st, Wrote r)
   /\ Kapacitors st (Fail err) = r)
  /\ (kid = Fail err \/ (exists id', kid = Ok id') /\ id = Fail err ->
      KapacitorsID st kid id = r
      /\ RemoveKapacitor st kid id = (st, r)
      /\ UpdateKapacitor st kid id patch = (st, r)
      /\ KapacitorRulesPost st kid id rule = Ret r
      /\ KapacitorRulesPut st kid id tid rule = Ret r
      /\ KapacitorRulesStatus st kid id tid status = Ret r
      /\ KapacitorRulesGet st kid id = Ret r
      /\ KapacitorRulesID st kid id tid = Ret r
      /\ KapacitorRulesDelete st kid id tid = Ret r).
Proof.
  intros r. split; [split; reflexivity|].
  intros [->|[[id' ->] ->]]; repeat split.
Qed.

(** ** Patches *)

(** X5. A patch is valid exactly when it has no url or its url parses
    with a non-empty scheme; the other fields are never validated. For
    an instance in scope, a patch that is not valid is answered with
    [invalidData] and an undecodable body with [invalidJSON], and in
    both cases the store is left as it was. *)
Theorem UpdateKapacitor_refuses_bad_patches (st : St) (id srcID : Z) (srv : Server)
    (req : patchKapacitorRequest) :
  (patchKapacitorRequest_Valid req = None <->
   patch_URL req = None
   \/ exists (purl : string) (url : URL),
        patch_URL req = Some purl /\ ParseRequestURI purl = Ok url /\ URL_Scheme url ≠ "")
  /\ (scoped st id srcID = inl srv ->
      (forall err, patchKapacitorRequest_Valid req = Some err ->
                   UpdateKapacitor st (Ok id) (Ok srcID) (Some req) = (st, invalidData err))
      /\ UpdateKapacitor st (Ok id) (Ok srcID) None = (st, invalidJSON)).
Proof.
  split.
  - unfold patchKapacitorRequest_Valid. destruct (patch_URL req) as [purl|]; [|split; auto].
    destruct (ParseRequestURI purl) as [url|err] eqn:Hparse.
    + destruct (decide (String.length (URL_Scheme url) = 0%nat)) as [Hz|Hnz].
      * split; [discriminate|]. intros [[=]|(p & u & [= <-] & Hp & Hs)].
        rewrite Hparse in Hp. injection Hp as <-.
        apply length_zero_iff_empty in Hz. contradiction.
      * split; [|reflexivity]. intros _. right. exists purl, url.
        repeat split; auto. intros Hs. apply Hnz. by apply length_zero_iff_empty.
    + split; [discriminate|]. intros [[=]|(p & u & [= <-] & Hp & _)].
      rewrite Hparse in Hp. discriminate.
  - intros Hsc. unfold UpdateKapacitor. rewrite Hsc. split; [|reflexivity].
    intros err Hv. rewrite Hv. reflexivity.
Qed.

Lemma patch_assign_fields (req : patchKapacitorRequest) (srv : Server) :
  patch_assign req srv
  = mkServer (Server_ID srv) (Server_SrcID srv)
      (default (Server_Name srv) (patch_Name req))
      (default (Server_Username srv) (patch_Username req))
      (default (Server_Password srv) (patch_Password req))
      (default (Server_URL srv) (patch_URL req))
      (default (Server_Active srv) (patch_Active req)).
Proof.
  destruct srv. destruct req as [[n|] [u|] [un|] [pw|] [a|]]; reflexivity.
Qed.

Lemma default_twice {A : Type} (x : A) (o : option A) :
  default (default x o) o = default x o.
Proof. by destruct o. Qed.

Lemma default_overlay {A : Type} (x : A) (a b : option A) :
  default (default x a) b = default x (from_option Some a b).
Proof. by destruct b. Qed.

(** X6. Patches compose: a patch with no field leaves the instance as
    it is, applying a patch twice is applying it once, and applying
    [later] after [earlier] is applying the one patch that takes each
    field from [later] where present and from [earlier] otherwise. *)
Theorem patches_compose (srv : Server) (earlier later : patchKapacitorRequest) :
  patch_assign (mkPatchKapacitorRequest None None None None None) srv = srv
  /\ patch_assign later (patch_assign later srv) = patch_assign later srv
  /\ patch_assign later (patch_assign earlier srv)
     = patch_assign (patch_overlay later earlier) srv.
Proof.
  rewrite !patch_assign_fields. simpl.
  split; [by destruct srv|].
  split; [by rewrite !default_twice | by rewrite !default_overlay].
Qed.

(** ** The translation of a rule, once more *)

Lemma normalized_query_idem (id : string) (q : QueryConfig) :
  normalized_query id (normalized_query id q) = normalized_query id q.
Proof.
  destruct q as [qid db rp fs tags [gt gtags]]. unfold normalized_query. simpl.
  f_equal. destruct (decide (qid = "")) as [->|Hne].
  - by destruct (decide (id = "")).
  - by destruct (decide (qid = "")).
Qed.

(** X7. The translation is idempotent on the rule: translating the
    rule of a response again, with whatever script, hrefs, status and
    ids, gives back that same rule. What [newAlertResponse] makes of a
    rule is a fixed point of it. *)
Theorem newAlertResponse_rule_is_a_fixed_point (rule : AlertRule)
    (tickScript href hrefOutput status : string) (srcID kapaID : Z)
    (tickScript' href' hrefOutput' status' : string) (srcID' kapaID' : Z) :
  let r := alertResponse_AlertRule
             (newAlertResponse rule tickScript href hrefOutput status srcID kapaID) in
  alertResponse_AlertRule
    (newAlertResponse r tickScript' href' hrefOutput' status' srcID' kapaID')
  = r.
Proof.
  cbv zeta. rewrite !newAlertResponse_fields. simpl. f_equal.
  destruct (AlertRule_Query rule) as [q|]; simpl; [|reflexivity].
  by rewrite normalized_query_idem.
Qed.


(** ** The rule handlers and the engine *)

(** X9. When the engine's [Get] of the task fails, the update, status,
    read and delete handlers stop there: the engine is not called
    again, and the answer is [notFound] of the instance id (not of the
    task id) for [ErrAlertNotFound], a 500 with the error's text for
    any other error. *)
Theorem a_failed_Get_stops_the_handler {E : Type} (h : engine E) (e e1 : E)
    (st : St) (id srcID : Z) (srv : Server) (tid : string) (err : error)
    (rule : AlertRule) (status : KapacitorStatus) :
  let c := NewClient (Server_URL srv) (Server_Username srv) (Server_Password srv) in
  scoped st id srcID = inl srv ->
  h _ (Get c tid) e = (e1, Fail err) ->
  let r := if decide (err = ErrAlertNotFound)
           then notFound id
           else Error StatusInternalServerError (error_Error err) in
  run h (KapacitorRulesPut st (Ok id) (Ok srcID) tid (Some rule)) e = (e1, r)
  /\ (KapacitorStatus_Valid status = None ->
      run h (KapacitorRulesStatus st (Ok id) (Ok srcID) tid (Some status)) e = (e1, r))
  /\ run h (KapacitorRulesID st (Ok id) (Ok srcID) tid) e = (e1, r)
  /\ run h (KapacitorRulesDelete st (Ok id) (Ok srcID) tid) e = (e1, r).
Proof.
  intros c Hsc Hget r.
  unfold KapacitorRulesPut, KapacitorRulesStatus, KapacitorRulesID, KapacitorRulesDelete.
  rewrite Hsc. fold c. simpl. rewrite Hget. simpl.
  split; [reflexivity|]. split; [|split; reflexivity].
  intros ->. simpl. rewrite Hget. reflexivity.
Qed.

Lemma KapacitorStatus_Valid_None (k : KapacitorStatus) :
  KapacitorStatus_Valid k = None ->
  KapacitorStatus_Status k = "enabled" \/ KapacitorStatus_Status k = "disabled".
Proof.
  unfold KapacitorStatus_Valid.
  destruct (bool_decide_reflect (KapacitorStatus_Status k = "enabled")); [auto|].
  destruct (bool_decide_reflect (KapacitorStatus_Status k = "disabled")); [auto|].
  discriminate.
Qed.

(** X10. The status handler. A status other than enabled or disabled
    is answered with [invalidData] before any call to the engine. The
    only calls the handler ever makes are the [Get] of the path's task,
    then [Enable] of its href when the body says enabled or [Disable]
    of its href when it says disabled. When both calls succeed, the
    answer is the rule that [Get] returned, with the script and hrefs
    of the task that the switch returned and with the requested status. *)
Theorem KapacitorRulesStatus_switches_the_task {E : Type} (h : engine E) (e e1 e2 : E)
    (st : St) (id srcID : Z) (srv : Server) (tid : string) (req : KapacitorStatus) :
  (forall (kid id0 : Result Z) (body : option KapacitorStatus),
     every_call (status_goes_to tid body) (KapacitorRulesStatus st kid id0 tid body))
  /\ (scoped st id srcID = inl srv ->
      forall err : error,
        KapacitorStatus_Valid req = Some err ->
        KapacitorRulesStatus st (Ok id) (Ok srcID) tid (Some req) = Ret (invalidData err))
  /\ (let c := NewClient (Server_URL srv) (Server_Username srv) (Server_Password srv) in
      scoped st id srcID = inl srv ->
      KapacitorStatus_Valid req = None ->
      forall (alert : AlertRule) (task : Task),
        h _ (Get c tid) e = (e1, Ok alert) ->
        h _ (if bool_decide (KapacitorStatus_Status req = "enabled")
             then Enable c (Client_Href c tid)
             else Disable c (Client_Href c tid)) e1 = (e2, Ok task) ->
        run h (KapacitorRulesStatus st (Ok id) (Ok srcID) tid (Some req)) e
        = (e2, encodeJSON None StatusOK
                 (body_alertResponse
                    (newAlertResponse alert (Task_TICKScript task) (Task_Href task)
                       (Task_HrefOutput task) (KapacitorStatus_Status req)
                       (Server_SrcID srv) (Server_ID srv))))).
Proof.
  split; [|split].
  - intros kid id0 body. unfold KapacitorRulesStatus.
    destruct kid as [id'|?]; [|exact I]. destruct id0 as [srcID'|?]; [|exact I].
    destruct (scoped st id' srcID') as [srv'|r]; [|exact I].
    destruct body as [req'|]; [|exact I].
    destruct (KapacitorStatus_Valid req') eqn:Hv; [exact I|].
    simpl. split; [reflexivity|]. intros [alert|err]; simpl; [|exact I].
    destruct (bool_decide_reflect (KapacitorStatus_Status req' = "enabled")) as [Hen|Hen];
      simpl.
    + split; [split; [reflexivity|eauto]|]. intros [task|err]; exact I.
    + split; [split; [reflexivity|]|].
      * exists req'. split; [reflexivity|].
        destruct (KapacitorStatus_Valid_None req' Hv); [contradiction|assumption].
      * intros [task|err]; exact I.
  - intros Hsc err Hv. unfold KapacitorRulesStatus. rewrite Hsc, Hv. reflexivity.
  - intros c Hsc Hv alert task Hget Hswitch.
    unfold KapacitorRulesStatus. rewrite Hsc, Hv. fold c. simpl.
    rewrite Hget. simpl. rewrite Hswitch. reflexivity.
Qed.


(** X12. The create handler sends the request body to the engine as it
    came, without validating it: for an instance in scope and any
    decoded body, the one call is [Create] of that body. On success the
    answer is 201, built from the task the engine returned, with status
    enabled and with a [Location] header equal to the response's self
    link, under the rule id the engine assigned; on failure it is a 500
    with the engine's error. *)
Theorem KapacitorRulesPost_creates_what_it_got {E : Type} (h : engine E) (e e1 : E)
    (st : St) (id srcID : Z) (srv : Server) (req : AlertRule) :
  (forall (kid id0 : Result Z) (body : option AlertRule),
     every_call (create_sends body) (KapacitorRulesPost st kid id0 body))
  /\ (let c := NewClient (Server_URL srv) (Server_Username srv) (Server_Password srv) in
      scoped st id srcID = inl srv ->
      (exists k, KapacitorRulesPost st (Ok id) (Ok srcID) (Some req) = Call (Create c req) k)
      /\ (forall task : Task,
            h _ (Create c req) e = (e1, Ok task) ->
            let res := newAlertResponse (Task_Rule task) (Task_TICKScript task)
                         (Task_Href task) (Task_HrefOutput task) "enabled"
                         (Server_SrcID srv) (Server_ID srv) in
            run h (KapacitorRulesPost st (Ok id) (Ok srcID) (Some req)) e
            = (e1, encodeJSON
                     (Some ("/chronograf/v1/sources/" +:+ Sprintd (Server_SrcID srv)
                              +:+ "/kapacitors/" +:+ Sprintd (Server_ID srv)
                              +:+ "/rules/" +:+ AlertRule_ID (Task_Rule task)))
                     StatusCreated (body_alertResponse res))
            /\ alertLinks_Self (alertResponse_Links res)
               = "/chronograf/v1/sources/" +:+ Sprintd (Server_SrcID srv)
                   +:+ "/kapacitors/" +:+ Sprintd (Server_ID srv)
                   +:+ "/rules/" +:+ AlertRule_ID (Task_Rule task))
      /\ (forall err : error,
            h _ (Create c req) e = (e1, Fail err) ->
            run h (KapacitorRulesPost st (Ok id) (Ok srcID) (Some req)) e
            = (e1, Error StatusInternalServerError (error_Error err)))).
Proof.
  split.
  - intros kid id0 body. unfold KapacitorRulesPost.
    destruct kid as [id'|?]; [|exact I]. destruct id0 as [srcID'|?]; [|exact I].
    destruct (scoped st id' srcID') as [srv'|r]; [|exact I].
    destruct body as [req'|]; [|exact I].
    simpl. split; [reflexivity|]. intros [task|err]; exact I.
  - intros c Hsc. unfold KapacitorRulesPost. rewrite Hsc. fold c.
    split; [eexists; reflexivity|]. split.
    + intros task Hcreate. cbv zeta. simpl. rewrite Hcreate. simpl.
      rewrite newAlertResponse_fields. simpl. split; reflexivity.
    + intros err Hcreate. simpl. rewrite Hcreate. reflexivity.
Qed.

(** X13. The read handler of one rule only reads from the engine. It
    asks for the status under the href of the id of the rule that [Get]
    returned, builds the answer from that rule and that id, and answers
    500 with the engine's error when the status cannot be read. *)
Theorem KapacitorRulesID_reads_the_task {E : Type} (h : engine E) (e e1 e2 : E)
    (st : St) (id srcID : Z) (srv : Server) (tid : string) (rule : AlertRule) :
  (forall kid id0 : Result Z, every_call reads_only (KapacitorRulesID st kid id0 tid))
  /\ (let c := NewClient (Server_URL srv) (Server_Username srv) (Server_Password srv) in
      scoped st id srcID = inl srv ->
      h _ (Get c tid) e = (e1, Ok rule) ->
      forall res : Result string,
        h _ (Status c (Client_Href c (AlertRule_ID rule))) e1 = (e2, res) ->
        run h (KapacitorRulesID st (Ok id) (Ok srcID) tid) e
        = (e2, match res with
               | Fail err => Error StatusInternalServerError (error_Error err)
               | Ok status =>
                   encodeJSON None StatusOK
                     (body_alertResponse
                        (newAlertResponse rule (AlertRule_TICKScript rule)
                           (Client_Href c (AlertRule_ID rule))
                           (Client_HrefOutput c (AlertRule_ID rule))
                           status (Server_SrcID srv) (Server_ID srv)))
               end)).
Proof.
  split.
  - intros kid id0. unfold KapacitorRulesID.
    destruct kid as [id'|?]; [|exact I]. destruct id0 as [srcID'|?]; [|exact I].
    destruct (scoped st id' srcID') as [srv'|r]; [|exact I].
    simpl. split; [exact I|]. intros [found|err]; simpl; [|exact I].
    split; [exact I|]. intros [status|err]; exact I.
  - intros c Hsc Hget res Hstatus. unfold KapacitorRulesID.
    rewrite Hsc. fold c. simpl. rewrite Hget. simpl. rewrite Hstatus.
    destruct res; reflexivity.
Qed.

(** X14. The listing handler only reads from the engine, and fails
    early: when the task listing fails the status listing is not asked
    for, and a failure of either is answered with a 500 carrying the
    engine's error. *)
Theorem KapacitorRulesGet_reads_and_fails_early {E : Type} (h : engine E) (e e1 e2 : E)
    (st : St) (id srcID : Z) (srv : Server) (err : error) :
  (forall kid id0 : Result Z, every_call reads_only (KapacitorRulesGet st kid id0))
  /\ (let c := NewClient (Server_URL srv) (Server_Username srv) (Server_Password srv) in
      scoped st id srcID = inl srv ->
      (h _ (All c) e = (e1, Fail err) ->
       run h (KapacitorRulesGet st (Ok id) (Ok srcID)) e
       = (e1, Error StatusInternalServerError (error_Error err)))
      /\ (forall rules : slice AlertRule,
            h _ (All c) e = (e1, Ok rules) ->
            h _ (AllStatus c) e1 = (e2, Fail err) ->
            run h (KapacitorRulesGet st (Ok id) (Ok srcID)) e
            = (e2, Error StatusInternalServerError (error_Error err)))).
Proof.
  split.
  - intros kid id0. unfold KapacitorRulesGet.
    destruct kid as [id'|?]; [|exact I]. destruct id0 as [srcID'|?]; [|exact I].
    destruct (scoped st id' srcID') as [srv'|r]; [|exact I].
    simpl. split; [exact I|]. intros [rules|e']; simpl; [|exact I].
    split; [exact I|]. intros [statuses|e']; exact I.
  - intros c Hsc. unfold KapacitorRulesGet. rewrite Hsc. fold c. split.
    + intros Hall. simpl. rewrite Hall. reflexivity.
    + intros rules Hall Hstat. simpl. rewrite Hall. simpl. rewrite Hstat. reflexivity.
Qed.

(** ** Creation, when it goes through *)

(** X15. For a source that exists and a request that passes [Valid],
    [NewKapacitor] hands the store an instance with id 0, the source id
    of the path and the fields of the request, password included. When
    the store adds it, the answer is 201 with the representation of the
    instance the store returned and a [Location] header equal to its
    self link; when the store fails, the answer is the store's error
    wrapped as an unknown error. A body that does not decode is
    answered with [invalidJSON] and nothing is stored. *)
Theorem NewKapacitor_stores_the_request (ss : Ss) (st : St) (srcID : Z)
    (req : postKapacitorRequest) (name purl : string) :
  SourcesStore_Get ss srcID = None ->
  (post_Name req = Some name -> post_URL req = Some purl ->
   postKapacitorRequest_Valid req = None ->
   let added :=
     ServersStore_Add st
       (mkServer 0 srcID name (post_Username req) (post_Password req) purl
          (post_Active req)) in
   NewKapacitor ss st (Ok srcID) (Some req)
   = (added.1,
      match added.2 with
      | Ok srv =>
          Wrote (encodeJSON
                   (Some ("/chronograf/v1/sources/" +:+ Sprintd (Server_SrcID srv)
                            +:+ "/kapacitors/" +:+ Sprintd (Server_ID srv)))
                   StatusCreated (body_kapacitor (newKapacitor srv)))
      | Fail err =>
          Wrote (unknownErrorWithMessage
                   (errorString ("Error storing kapacitor "
                                   +:+ Sprintv_postKapacitorRequest req
                                   +:+ ": " +:+ error_Error err)))
      end))
  /\ NewKapacitor ss st (Ok srcID) None = (st, Wrote invalidJSON).
Proof.
  intros Hsrc. split.
  - intros Hname Hurl Hvalid added. subst added. unfold NewKapacitor.
    rewrite Hsrc, Hvalid, Hname, Hurl.
    destruct (ServersStore_Add st _) as [st' [srv|err]]; reflexivity.
  - unfold NewKapacitor. rewrite Hsrc. reflexivity.
Qed.

(** ** Links as names *)

Lemma pretty_N_char_no_slash (x : N) : pretty_N_char x ≠ "/"%char.
Proof. unfold pretty_N_char. repeat case_match; discriminate. Qed.

Lemma pretty_N_go_no_slash (x : N) (s : string) :
  no_slash s -> no_slash (pretty_N_go x s).
Proof.
  revert s. induction (N.lt_wf_0 x) as [x _ IH]. intros s Hs.
  destruct (decide (0 < x)%N) as [Hx|Hx].
  - rewrite pretty_N_go_step by done. apply IH.
    + apply N.div_lt; lia.
    + split; [apply pretty_N_char_no_slash|done].
  - assert (x = 0%N) as -> by lia. by rewrite pretty_N_go_0.
Qed.

Lemma Sprintd_no_slash (z : Z) : no_slash (Sprintd z).
Proof.
  assert (HN : forall n : N, no_slash (pretty n)).
  { intros n. unfold pretty, pretty_N. case_decide; [simpl; auto|].
    by apply pretty_N_go_no_slash. }
  unfold Sprintd. destruct z as [|p|p]; unfold pretty, pretty_Z.
  - simpl. auto.
  - apply HN.
  - split; [discriminate|apply HN].
Qed.

Lemma split_at_slash (a a' r r' : string) :
  no_slash a -> no_slash a' ->
  a +:+ String "/" r = a' +:+ String "/" r' -> a = a' /\ r = r'.
Proof.
  revert a'. induction a as [|c a IH]; intros [|c' a'] Ha Ha' Heq.
  - injection Heq as ->. auto.
  - injection Heq as Hc _. destruct Ha' as [Hc' _]. congruence.
  - injection Heq as Hc _. destruct Ha as [Hc' _]. congruence.
  - injection Heq as -> Heq. destruct Ha as [_ Ha], Ha' as [_ Ha'].
    destruct (IH a' Ha Ha' Heq) as [-> ->]. auto.
Qed.

Lemma Sprintd_inj (a b : Z) : Sprintd a = Sprintd b -> a = b.
Proof. unfold Sprintd. apply (inj pretty). Qed.

(** X17. A self link names one resource. Two instances whose
    representations have the same self link have the same source id and
    the same id; two rule responses with the same self link were made
    for the same source id, the same instance id and the same rule id. *)
Theorem self_links_name_one_resource (srv srv' : Server) (rule rule' : AlertRule)
    (tickScript href hrefOutput status : string) (srcID kapaID : Z)
    (tickScript' href' hrefOutput' status' : string) (srcID' kapaID' : Z) :
  (kapaLinks_Self (kapacitor_Links (newKapacitor srv))
   = kapaLinks_Self (kapacitor_Links (newKapacitor srv')) ->
   Server_SrcID srv = Server_SrcID srv' /\ Server_ID srv = Server_ID srv')
  /\ (alertLinks_Self
        (alertResponse_Links
           (newAlertResponse rule tickScript href hrefOutput status srcID kapaID))
      = alertLinks_Self
          (alertResponse_Links
             (newAlertResponse rule' tickScript' href' hrefOutput' status' srcID' kapaID')) ->
      srcID = srcID' /\ kapaID = kapaID' /\ AlertRule_ID rule = AlertRule_ID rule').
Proof.
  split.
  - unfold newKapacitor. cbn [kapacitor_Links kapaLinks_Self].
    intros Heq. apply (inj (String.append _)) in Heq.
    apply (inj (String.append _)) in Heq.
    change (Sprintd (Server_SrcID srv) +:+ String "/" ("kapacitors/" +:+ Sprintd (Server_ID srv))
            = Sprintd (Server_SrcID srv')
                +:+ String "/" ("kapacitors/" +:+ Sprintd (Server_ID srv'))) in Heq.
    apply split_at_slash in Heq as [Hs Hk]; [|apply Sprintd_no_slash..].
    apply (inj (String.append _)) in Hk.
    split; by apply Sprintd_inj.
  - rewrite !newAlertResponse_fields. cbn [alertResponse_Links alertLinks_Self].
    intros Heq. apply (inj (String.append _)) in Heq.
    change (Sprintd srcID
              +:+ String "/" ("kapacitors/" +:+ Sprintd kapaID +:+ "/rules/"
                                +:+ AlertRule_ID rule)
            = Sprintd srcID'
                +:+ String "/" ("kapacitors/" +:+ Sprintd kapaID' +:+ "/rules/"
                                  +:+ AlertRule_ID rule')) in Heq.
    apply split_at_slash in Heq as [Hs Hk]; [|apply Sprintd_no_slash..].
    apply (inj (String.append _)) in Hk.
    change (Sprintd kapaID +:+ String "/" ("rules/" +:+ AlertRule_ID rule)
            = Sprintd kapaID' +:+ String "/" ("rules/" +:+ AlertRule_ID rule')) in Hk.
    apply split_at_slash in Hk as [Hk Hr]; [|apply Sprintd_no_slash..].
    apply (inj (String.append _)) in Hr.
    split; [by apply Sprintd_inj|]. split; [by apply Sprintd_inj|exact Hr].
Qed.

(** ** Translation and validation *)

(** X18. Translating a rule does not change what [ValidRuleRequest]
    says of it: the rule of a response is refused for submission, with
    the same error, exactly when the rule it was made from is. *)
Theorem translation_keeps_validity (rule : AlertRule)
    (tickScript href hrefOutput status : string) (srcID kapaID : Z) :
  ValidRuleRequest
    (alertResponse_AlertRule
       (newAlertResponse rule tickScript href hrefOutput status srcID kapaID))
  = ValidRuleRequest rule.
Proof.
  rewrite newAlertResponse_fields. unfold ValidRuleRequest. simpl.
  destruct (AlertRule_Query rule) as [q|]; reflexivity.
Qed.

(** X19. What the update handler answers. When [Get] finds the task,
    the answer to a successful [Update] is built from the task the
    engine returned and always says enabled, whatever the engine's
    status of the task is; a failed [Update] is answered with a 500
    carrying the engine's error. A body that does not decode is
    answered with [invalidJSON] before any call. *)
Theorem KapacitorRulesPut_answers {E : Type} (h : engine E) (e e1 e2 : E)
    (st : St) (id srcID : Z) (srv : Server) (tid : string) (req found : AlertRule) :
  let c := NewClient (Server_URL srv) (Server_Username srv) (Server_Password srv) in
  scoped st id srcID = inl srv ->
  KapacitorRulesPut st (Ok id) (Ok srcID) tid None = Ret invalidJSON
  /\ (h _ (Get c tid) e = (e1, Ok found) ->
      forall res : Result Task,
        h _ (Update c (Client_Href c tid) (set_AlertRule_ID tid req)) e1 = (e2, res) ->
        run h (KapacitorRulesPut st (Ok id) (Ok srcID) tid (Some req)) e
        = (e2, match res with
               | Fail err => Error StatusInternalServerError (error_Error err)
               | Ok task =>
                   encodeJSON None StatusOK
                     (body_alertResponse
                        (newAlertResponse (Task_Rule task) (Task_TICKScript task)
                           (Task_Href task) (Task_HrefOutput task) "enabled"
                           (Server_SrcID srv) (Server_ID srv)))
               end)).
Proof.
  intros c Hsc. unfold KapacitorRulesPut. rewrite Hsc. fold c.
  split; [reflexivity|].
  intros Hget res Hupd. simpl. rewrite Hget. simpl. rewrite Hupd.
  destruct res; reflexivity.
Qed.

End Properties.

(** * The properties on examples

    From here on the collaborators are the sample ones. *)

#[local] Existing Instance sample_External.
#[local] Existing Instance registry.
#[local] Existing Instance sources.

(** C1 on the sample registry: instance 1 belongs to source 1, so under
    source 2 it is not found, exactly as in an empty registry. *)
Lemma C1_scope_resolution_witness :
  ServersStore_Get sample_registry 1 = Ok sample_srv
  /\ KapacitorsID sample_registry (Ok 1) (Ok 1)
     = encodeJSON None StatusOK (body_kapacitor (newKapacitor sample_srv))
  /\ KapacitorsID sample_registry (Ok 1) (Ok 2) = notFound 1
  /\ KapacitorsID (St := list Server) [] (Ok 1) (Ok 2) = notFound 1.
Proof.
  split; [reflexivity|].
  assert (Hget : ServersStore_Get sample_registry (Server_ID sample_srv) = Ok sample_srv)
    by reflexivity.
  destruct (C1_scope_resolution sample_registry sample_srv Hget) as [[_ [Hown _]] Hother].
  split; [exact Hown|].
  destruct (Hother 2 ltac:(discriminate)) as (Hk & _ & Habsent).
  split; [exact Hk|].
  assert (Hnone : ServersStore_Get (St := list Server) [] (Server_ID sample_srv)
                  = Fail (errorString "server not found")) by reflexivity.
  destruct (Habsent [] (errorString "server not found") 2 Hnone) as [Heq _].
  exact (eq_trans Heq Hk).
Defined.

(** C3, the claim as stated fails: a query whose id is already the
    rule's id comes back with the rule's id although it was not empty. *)
Lemma C3_counterexample :
  let q := mkQueryConfig "cpu" "telegraf" "autogen" None None (mkGroupBy "" None) in
  let rule := mkAlertRule "cpu" "" (Some q) "" None None "" "" "" "" in
  let res := newAlertResponse rule "" "" "" "enabled" 1 1 in
  ~ (QueryConfig_ID <$> AlertRule_Query (alertResponse_AlertRule res)
     = Some (AlertRule_ID rule)
     <-> QueryConfig_ID q = "").
Proof.
  intros q rule res [Hto _].
  assert (H : QueryConfig_ID q = "") by (apply Hto; vm_compute; reflexivity).
  discriminate H.
Qed.

(** C3 as amended, on the sample rule, whose query has an empty id. *)
Lemma C3_query_id_default_witness :
  AlertRule_Query sample_rule_cpu = Some sample_query
  /\ exists q',
       AlertRule_Query
         (alertResponse_AlertRule (newAlertResponse sample_rule_cpu "" "" "" "enabled" 1 1))
       = Some q'
       /\ QueryConfig_ID q' = "cpu".
Proof.
  split; [reflexivity|].
  assert (Hquery : AlertRule_Query sample_rule_cpu = Some sample_query) by reflexivity.
  destruct (C3_query_id_default sample_rule_cpu sample_query "" "" "" "enabled" 1 1 Hquery)
    as (q' & Hq & Hempty & _).
  exists q'. split; [exact Hq|]. apply Hempty. reflexivity.
Defined.

(** C4 on the sample rules: functions without a window are refused, and
    so is a rule without a query. *)
Lemma C4_ValidRuleRequest_witness :
  ValidRuleRequest sample_rule_cpu
  = Some (errorString ("invalid alert rule: functions require an "
                         +:+ dquote +:+ "every" +:+ dquote +:+ " window"))
  /\ ValidRuleRequest sample_rule_mem
     = Some (errorString "invalid alert rule: no query defined").
Proof.
  split.
  - destruct (C4_ValidRuleRequest sample_rule_cpu) as (_ & H & _).
    assert (Hquery : AlertRule_Query sample_rule_cpu = Some sample_query) by reflexivity.
    destruct (H sample_query Hquery) as (Hrej & _).
    apply Hrej; [|reflexivity].
    exists (mkField "usage_user" (Some ["mean"])).
    split; [apply list_elem_of_here | vm_compute; lia].
  - destruct (C4_ValidRuleRequest sample_rule_mem) as (H & _). apply H. reflexivity.
Defined.

(** C5, the claim as stated fails: a request whose name is the empty
    string, with the URL of the source's own comment, passes [Valid] and
    the instance is created. *)
Lemma C5_counterexample :
  let req := mkPostKapacitorRequest (Some "") (Some "http://localhost:9092") "" "" true in
  let srv := mkServer 1 1 "" "" "" "http://localhost:9092" true in
  post_Name req = Some ""
  /\ postKapacitorRequest_Valid req = None
  /\ NewKapacitor [1] [] (Ok 1) (Some req)
     = ([srv],
        Wrote (encodeJSON (Some "/chronograf/v1/sources/1/kapacitors/1") StatusCreated
                 (body_kapacitor (newKapacitor srv)))).
Proof. vm_compute. repeat split. Qed.

(** C5 as amended, on a request whose url is the empty string: refused
    with [invalidData] under source 1, which exists, and with [notFound]
    under source 2, which does not. *)
Lemma C5_creation_requirements_witness :
  let req := mkPostKapacitorRequest (Some "kapa1") (Some "") "" "" true in
  NewKapacitor [1] [] (Ok 1) (Some req)
  = ([], Wrote (invalidData (errorString "invalid source URI: empty url")))
  /\ NewKapacitor [1] [] (Ok 2) (Some req) = ([], Wrote (notFound 2)).
Proof.
  intros req.
  destruct (C5_creation_requirements [1] [] 1 req) as (_ & Hrej & _).
  destruct (C5_creation_requirements [1] [] 2 req) as (_ & _ & Hsrc).
  split.
  - destruct Hrej as (err & Hv & Hnew).
    + intros (n & p & u & _ & Hp & Hparse & _).
      injection Hp as <-. discriminate Hparse.
    + injection Hv as <-. apply Hnew. reflexivity.
  - apply Hsrc. eexists. reflexivity.
Defined.

(** C6 on the sample registry: a patch of name and password leaves url,
    username, active, id and source id as stored. *)
Lemma C6_update_partial_merge_witness :
  UpdateKapacitor sample_registry (Ok 1) (Ok 1) (Some sample_patch)
  = ([mkServer 1 1 "kapa2" "" "secret" "http://localhost:9092" true],
     encodeJSON None StatusOK
       (body_kapacitor
          (newKapacitor (mkServer 1 1 "kapa2" "" "secret" "http://localhost:9092" true)))).
Proof.
  destruct (C6_update_partial_merge sample_srv sample_patch) as [_ H].
  assert (Hsc : scoped sample_registry 1 1 = inl sample_srv) by reflexivity.
  assert (Hv : patchKapacitorRequest_Valid sample_patch = None) by reflexivity.
  rewrite (H sample_registry 1 1 Hsc Hv). reflexivity.
Defined.

(** C7 on a status that is neither enabled nor disabled. *)
Lemma C7_status_valid_witness :
  KapacitorStatus_Valid (mkKapacitorStatus "paused")
  = Some (errorString "Invalid Kapacitor status: paused").
Proof.
  destruct (C7_status_valid (mkKapacitorStatus "paused")) as (_ & _ & _ & H).
  apply H; discriminate.
Defined.

(** C8 on the sample instance and rule. *)
Lemma C8_links_witness :
  kapaLinks_Self (kapacitor_Links (newKapacitor sample_srv))
  = "/chronograf/v1/sources/1/kapacitors/1"
  /\ alertLinks_Kapacitor
       (alertResponse_Links
          (newAlertResponse sample_rule_cpu "" "/kapacitor/v1/tasks/cpu"
             "/kapacitor/v1/tasks/cpu/output" "enabled" 1 1))
     = "/chronograf/v1/sources/1/kapacitors/1/proxy?path=%2Fkapacitor%2Fv1%2Ftasks%2Fcpu"
  /\ alertResponse_Links
       (newAlertResponse (set_AlertRule_Query None sample_rule_cpu) "script"
          "/kapacitor/v1/tasks/cpu" "/kapacitor/v1/tasks/cpu/output" "disabled" 1 1)
     = alertResponse_Links
         (newAlertResponse sample_rule_cpu "" "/kapacitor/v1/tasks/cpu"
            "/kapacitor/v1/tasks/cpu/output" "enabled" 1 1).
Proof.
  destruct (C8_links sample_srv sample_rule_cpu "" "/kapacitor/v1/tasks/cpu"
              "/kapacitor/v1/tasks/cpu/output" "enabled" 1 1) as (Hs & Hk & _ & Hd).
  split; [rewrite Hs; reflexivity|].
  split; [rewrite Hk; reflexivity|].
  apply Hd. reflexivity.
Defined.

(** C9 on the sample engine: of the two rules listed, only the one with
    a status is in the answer. *)
Lemma C9_rules_listing_witness :
  exists ar,
    run sample_engine (KapacitorRulesGet sample_registry (Ok 1) (Ok 1)) sample_tasks
    = (sample_tasks,
       encodeJSON None StatusOK
         (body_allAlertsResponse {| allAlertsResponse_Rules := Some [ar] |}))
    /\ AlertRule_ID (alertResponse_AlertRule ar) = "cpu"
    /\ alertResponse_Status ar = "enabled".
Proof.
  assert (Hsc : scoped sample_registry 1 1 = inl sample_srv) by reflexivity.
  pose (c := NewClient (Server_URL sample_srv) (Server_Username sample_srv)
               (Server_Password sample_srv)).
  assert (Hall : sample_engine _ (All c) sample_tasks
                 = (sample_tasks, Ok (Some sample_tasks.1))) by reflexivity.
  assert (Hstat : sample_engine _ (AllStatus c) sample_tasks
                  = (sample_tasks, Ok (list_to_map sample_tasks.2))) by reflexivity.
  destruct (C9_rules_listing sample_engine sample_tasks sample_tasks sample_tasks
              sample_registry 1 1 sample_srv (Some sample_tasks.1)
              (list_to_map sample_tasks.2) Hsc Hall Hstat) as (Hrun & _).
  eexists. split; [exact Hrun|]. split; reflexivity.
Defined.

(** C10 on the sample engine: a body that names the task [mem] is sent
    to the engine as the task [cpu] of the path, and it is the task
    [cpu] that the engine replaces. *)
Lemma C10_update_carries_path_id_witness :
  scoped sample_registry 1 1 = inl sample_srv
  /\ (exists k1 k2,
        KapacitorRulesPut sample_registry (Ok 1) (Ok 1) "cpu" (Some sample_rule_mem)
        = Call (Get (NewClient "http://localhost:9092" "" "") "cpu") k1
        /\ k1 (Ok sample_rule_cpu)
           = Call (Update (NewClient "http://localhost:9092" "" "")
                     "/kapacitor/v1/tasks/cpu"
                     (set_AlertRule_ID "cpu" sample_rule_mem)) k2)
  /\ (run sample_engine
        (KapacitorRulesPut sample_registry (Ok 1) (Ok 1) "cpu" (Some sample_rule_mem))
        sample_tasks).1.1
     = [set_AlertRule_ID "cpu" sample_rule_mem; sample_rule_mem].
Proof.
  assert (Hsc : scoped sample_registry 1 1 = inl sample_srv) by reflexivity.
  split; [exact Hsc|]. split; [|reflexivity].
  destruct (C10_update_carries_path_id sample_registry (Ok 1) (Ok 1) "cpu"
              (Some sample_rule_mem)) as (_ & _ & Hsent).
  exact (Hsent 1 1 sample_srv sample_rule_mem sample_rule_cpu
           eq_refl eq_refl Hsc eq_refl).
Defined.

(** * The further properties on examples *)

(** X1 on the registry of three: source 1 has the first and the third
    instance, source 7 has none and gets an empty list, not a nil one. *)
Lemma Kapacitors_lists_the_source_witness :
  Kapacitors sample_registry3 (Ok 1)
  = encodeJSON None StatusOK
      (body_kapacitors
         {| kapacitors_Kapacitors := Some [newKapacitor sample_srv; newKapacitor sample_srv3] |})
  /\ Kapacitors sample_registry3 (Ok 7)
     = encodeJSON None StatusOK (body_kapacitors {| kapacitors_Kapacitors := Some [] |})
  /\ Kapacitors (ServersStore0 := offline_registry) tt (Ok 1)
     = Error StatusInternalServerError "Error loading kapacitors".
Proof.
  assert (Hall : ServersStore_All sample_registry3 = Ok sample_registry3) by reflexivity.
  assert (Hoff : @ServersStore_All unit offline_registry tt
                 = Fail (errorString "store offline")) by reflexivity.
  split; [|split].
  - destruct (Kapacitors_lists_the_source sample_registry3 1) as [H _].
    rewrite (H _ Hall). reflexivity.
  - destruct (Kapacitors_lists_the_source sample_registry3 7) as [H _].
    rewrite (H _ Hall). reflexivity.
  - destruct (Kapacitors_lists_the_source (ServersStore0 := offline_registry) tt 1) as [_ H].
    exact (H _ Hoff).
Defined.


(** X3 on the sample registry: instance 1 is not of source 2. *)
Lemma rule_handlers_stop_at_the_scope_guard_witness :
  KapacitorRulesDelete sample_registry (Ok 1) (Ok 2) "cpu" = Ret (notFound 1)
  /\ KapacitorRulesPost sample_registry (Ok 1) (Ok 2) (Some sample_rule_cpu)
     = Ret (notFound 1).
Proof.
  assert (Hno : forall srv, ServersStore_Get sample_registry 1 = Ok srv ->
                            Server_SrcID srv ≠ 2).
  { intros srv Hget. injection Hget as <-. discriminate. }
  destruct (rule_handlers_stop_at_the_scope_guard sample_registry 1 2 "cpu"
              (Some sample_rule_cpu) None Hno) as (Hpost & _ & _ & _ & _ & Hdel).
  split; [exact Hdel | exact Hpost].
Defined.

(** X4 on two bad ids at once: the instance id's error is the one
    reported, and the registry is as it was. *)
Lemma bad_path_ids_are_unprocessable_witness :
  UpdateKapacitor sample_registry (Fail (errorString "bad kid")) (Fail (errorString "bad id"))
    (Some sample_patch)
  = (sample_registry, Error StatusUnprocessableEntity "bad kid").
Proof.
  destruct (bad_path_ids_are_unprocessable [1] sample_registry
              (Fail (errorString "bad kid")) (Fail (errorString "bad id"))
              (errorString "bad kid") "cpu" None (Some sample_patch) None None)
    as (_ & H).
  destruct H as (_ & _ & Hupd & _); [left; reflexivity|]. exact Hupd.
Defined.

(** X5 on a patch whose url is an absolute path: refused, and the
    registry keeps the old name. *)
Lemma UpdateKapacitor_refuses_bad_patches_witness :
  UpdateKapacitor sample_registry (Ok 1) (Ok 1) (Some sample_patch_no_scheme)
  = (sample_registry, invalidData (errorString "Invalid URL; no URL scheme defined")).
Proof.
  assert (Hsc : scoped sample_registry 1 1 = inl sample_srv) by reflexivity.
  assert (Hv : patchKapacitorRequest_Valid sample_patch_no_scheme
               = Some (errorString "Invalid URL; no URL scheme defined")) by reflexivity.
  destruct (UpdateKapacitor_refuses_bad_patches sample_registry 1 1 sample_srv
              sample_patch_no_scheme) as (_ & H).
  destruct (H Hsc) as (Hbad & _). exact (Hbad _ Hv).
Defined.


(** X9 on the sample engine, which has no task [disk]: the delete
    handler answers [notFound] of the instance, 1, and the engine keeps
    its tasks. *)
Lemma a_failed_Get_stops_the_handler_witness :
  run sample_live_engine (KapacitorRulesDelete sample_registry (Ok 1) (Ok 1) "disk")
    sample_tasks
  = (sample_tasks, notFound 1).
Proof.
  assert (Hsc : scoped sample_registry 1 1 = inl sample_srv) by reflexivity.
  pose (c := NewClient (Server_URL sample_srv) (Server_Username sample_srv)
               (Server_Password sample_srv)).
  assert (Hget : sample_live_engine _ (Get c "disk") sample_tasks
                 = (sample_tasks, Fail ErrAlertNotFound)) by reflexivity.
  destruct (a_failed_Get_stops_the_handler sample_live_engine sample_tasks sample_tasks
              sample_registry 1 1 sample_srv "disk" ErrAlertNotFound
              sample_rule_cpu (mkKapacitorStatus "enabled") Hsc Hget)
    as (_ & _ & _ & Hdel).
  exact Hdel.
Defined.

(** X10 on the live engine: disabling the task [cpu]. *)
Lemma KapacitorRulesStatus_switches_the_task_witness :
  exists ar,
    run sample_live_engine
      (KapacitorRulesStatus sample_registry (Ok 1) (Ok 1) "cpu"
         (Some (mkKapacitorStatus "disabled")))
      sample_tasks
    = ((sample_tasks.1, ("cpu", "disabled") :: sample_tasks.2),
       encodeJSON None StatusOK (body_alertResponse ar))
    /\ alertResponse_Status ar = "disabled"
    /\ AlertRule_ID (alertResponse_AlertRule ar) = "cpu".
Proof.
  assert (Hsc : scoped sample_registry 1 1 = inl sample_srv) by reflexivity.
  assert (Hv : KapacitorStatus_Valid (mkKapacitorStatus "disabled") = None) by reflexivity.
  pose (c := NewClient (Server_URL sample_srv) (Server_Username sample_srv)
               (Server_Password sample_srv)).
  assert (Hget : sample_live_engine _ (Get c "cpu") sample_tasks
                 = (sample_tasks, Ok sample_rule_cpu)) by reflexivity.
  assert (Hsw : sample_live_engine _
                  (if bool_decide (KapacitorStatus_Status (mkKapacitorStatus "disabled")
                                   = "enabled")
                   then Enable c (Client_Href c "cpu")
                   else Disable c (Client_Href c "cpu")) sample_tasks
                = ((sample_tasks.1, ("cpu", "disabled") :: sample_tasks.2),
                   Ok (mkTask sample_rule_cpu "" "/kapacitor/v1/tasks/cpu"
                         "/kapacitor/v1/tasks/cpu/output"))) by reflexivity.
  destruct (KapacitorRulesStatus_switches_the_task sample_live_engine sample_tasks
              sample_tasks (sample_tasks.1, ("cpu", "disabled") :: sample_tasks.2)
              sample_registry 1 1 sample_srv "cpu" (mkKapacitorStatus "disabled"))
    as (_ & _ & H).
  eexists. split; [exact (H Hsc Hv _ _ Hget Hsw)|]. split; reflexivity.
Defined.


(** X12 on the sample engine: the rule without a query, which
    [ValidRuleRequest] refuses, is created all the same. *)
Lemma KapacitorRulesPost_creates_what_it_got_witness :
  ValidRuleRequest sample_rule_mem
  = Some (errorString "invalid alert rule: no query defined")
  /\ exists ar,
       run sample_engine (KapacitorRulesPost sample_registry (Ok 1) (Ok 1)
                            (Some sample_rule_mem)) ([], [])
       = (([sample_rule_mem], [("mem", "enabled")]),
          encodeJSON (Some "/chronograf/v1/sources/1/kapacitors/1/rules/mem")
            StatusCreated (body_alertResponse ar)).
Proof.
  split; [reflexivity|].
  assert (Hsc : scoped sample_registry 1 1 = inl sample_srv) by reflexivity.
  pose (c := NewClient (Server_URL sample_srv) (Server_Username sample_srv)
               (Server_Password sample_srv)).
  assert (Hcreate : sample_engine _ (Create c sample_rule_mem) ([], [])
                    = (([sample_rule_mem], [("mem", "enabled")]),
                       Ok (mkTask sample_rule_mem "" "/kapacitor/v1/tasks/mem"
                             "/kapacitor/v1/tasks/mem/output"))) by reflexivity.
  destruct (KapacitorRulesPost_creates_what_it_got sample_engine ([], [])
              ([sample_rule_mem], [("mem", "enabled")])
              sample_registry 1 1 sample_srv sample_rule_mem) as (_ & H).
  destruct (H Hsc) as (_ & Hok & _).
  destruct (Hok _ Hcreate) as (Hrun & _).
  eexists. exact Hrun.
Defined.

(** X13 on the live engine: the task [cpu] is read with its status. *)
Lemma KapacitorRulesID_reads_the_task_witness :
  exists ar,
    run sample_live_engine (KapacitorRulesID sample_registry (Ok 1) (Ok 1) "cpu")
      sample_tasks
    = (sample_tasks, encodeJSON None StatusOK (body_alertResponse ar))
    /\ alertResponse_Status ar = "enabled".
Proof.
  assert (Hsc : scoped sample_registry 1 1 = inl sample_srv) by reflexivity.
  pose (c := NewClient (Server_URL sample_srv) (Server_Username sample_srv)
               (Server_Password sample_srv)).
  assert (Hget : sample_live_engine _ (Get c "cpu") sample_tasks
                 = (sample_tasks, Ok sample_rule_cpu)) by reflexivity.
  assert (Hst : sample_live_engine _
                  (Status c (Client_Href c (AlertRule_ID sample_rule_cpu))) sample_tasks
                = (sample_tasks, Ok "enabled")) by (vm_compute; reflexivity).
  destruct (KapacitorRulesID_reads_the_task sample_live_engine sample_tasks sample_tasks
              sample_tasks sample_registry 1 1 sample_srv "cpu" sample_rule_cpu)
    as (_ & H).
  eexists. split; [exact (H Hsc Hget _ Hst)|]. reflexivity.
Defined.

(** X14 on the engine that is down. *)
Lemma KapacitorRulesGet_reads_and_fails_early_witness :
  run sample_down_engine (KapacitorRulesGet sample_registry (Ok 1) (Ok 1)) tt
  = (tt, Error StatusInternalServerError "connection refused").
Proof.
  assert (Hsc : scoped sample_registry 1 1 = inl sample_srv) by reflexivity.
  pose (c := NewClient (Server_URL sample_srv) (Server_Username sample_srv)
               (Server_Password sample_srv)).
  assert (Hall : sample_down_engine _ (All c) tt
                 = (tt, Fail (errorString "connection refused"))) by reflexivity.
  destruct (KapacitorRulesGet_reads_and_fails_early sample_down_engine tt tt tt
              sample_registry 1 1 sample_srv (errorString "connection refused"))
    as (_ & H).
  destruct (H Hsc) as (Hfail & _). exact (Hfail Hall).
Defined.

(** X15 on the request with credentials: the registry stores the
    password, and the answer points at the new instance. *)
Lemma NewKapacitor_stores_the_request_witness :
  let stored := mkServer 1 1 "kapa1" "admin" "hunter2" "http://localhost:9092" true in
  NewKapacitor [1] [] (Ok 1) (Some sample_post)
  = ([stored],
     Wrote (encodeJSON (Some "/chronograf/v1/sources/1/kapacitors/1") StatusCreated
              (body_kapacitor (newKapacitor stored)))).
Proof.
  intros stored.
  assert (Hsrc : SourcesStore_Get [1] 1 = None) by reflexivity.
  assert (Hname : post_Name sample_post = Some "kapa1") by reflexivity.
  assert (Hurl : post_URL sample_post = Some "http://localhost:9092") by reflexivity.
  assert (Hv : postKapacitorRequest_Valid sample_post = None) by reflexivity.
  destruct (NewKapacitor_stores_the_request [1] [] 1 sample_post "kapa1"
              "http://localhost:9092" Hsrc) as (H & _).
  rewrite (H Hname Hurl Hv). reflexivity.
Defined.

(** X17 on two records of the same instance that differ in their
    name: the self links are equal, and so are the ids. *)
Lemma self_links_name_one_resource_witness :
  let renamed := mkServer 1 1 "kapa-renamed" "" "" "http://localhost:9092" true in
  kapaLinks_Self (kapacitor_Links (newKapacitor sample_srv))
  = kapaLinks_Self (kapacitor_Links (newKapacitor renamed))
  /\ Server_SrcID sample_srv = Server_SrcID renamed
  /\ Server_ID sample_srv = Server_ID renamed.
Proof.
  intros renamed.
  assert (Heq : kapaLinks_Self (kapacitor_Links (newKapacitor sample_srv))
                = kapaLinks_Self (kapacitor_Links (newKapacitor renamed))) by reflexivity.
  split; [exact Heq|].
  destruct (self_links_name_one_resource sample_srv renamed sample_rule_cpu
              sample_rule_mem "" "" "" "" 1 1 "" "" "" "" 1 1) as (H & _).
  exact (H Heq).
Defined.

(** X19 on the sample engine: the task [cpu] is replaced by the body,
    and the answer says enabled. *)
Lemma KapacitorRulesPut_answers_witness :
  exists ar,
    run sample_engine
      (KapacitorRulesPut sample_registry (Ok 1) (Ok 1) "cpu" (Some sample_rule_mem))
      sample_tasks
    = (([set_AlertRule_ID "cpu" sample_rule_mem; sample_rule_mem], sample_tasks.2),
       encodeJSON None StatusOK (body_alertResponse ar))
    /\ alertResponse_Status ar = "enabled".
Proof.
  assert (Hsc : scoped sample_registry 1 1 = inl sample_srv) by reflexivity.
  pose (c := NewClient (Server_URL sample_srv) (Server_Username sample_srv)
               (Server_Password sample_srv)).
  assert (Hget : sample_engine _ (Get c "cpu") sample_tasks
                 = (sample_tasks, Ok sample_rule_cpu)) by reflexivity.
  assert (Hupd : sample_engine _
                   (Update c (Client_Href c "cpu") (set_AlertRule_ID "cpu" sample_rule_mem))
                   sample_tasks
                 = (([set_AlertRule_ID "cpu" sample_rule_mem; sample_rule_mem],
                     sample_tasks.2),
                    Ok (mkTask (set_AlertRule_ID "cpu" sample_rule_mem) ""
                          "/kapacitor/v1/tasks/cpu" "/kapacitor/v1/tasks/cpu/output")))
    by reflexivity.
  destruct (KapacitorRulesPut_answers sample_engine sample_tasks sample_tasks
              ([set_AlertRule_ID "cpu" sample_rule_mem; sample_rule_mem], sample_tasks.2)
              sample_registry 1 1 sample_srv "cpu" sample_rule_mem sample_rule_cpu Hsc)
    as (_ & H).
  eexists. split; [exact (H Hget _ Hupd)|]. reflexivity.
Defined.
